(** * Query-description pipeline of the sqlx query macros

    Shallow embedding of [sqlx-macros/src/query/mod.rs] and
    [sqlx-macros/src/query/input.rs].  The macro expansion is a function of
    the build configuration (enabled cargo features), the environment and a
    record of external collaborators (database connection and describe, URL
    parsing, argument quoting, the file system).  The only state touched by
    the expansion is the directory of saved query data ([target/sqlx]), which
    is threaded explicitly. *)

From Stdlib Require Import String Ascii List Bool Arith Lia.
From Stdlib Require Import DecimalString.
Import ListNotations.
Open Scope string_scope.

(** ** Results *)

(** [crate::Result] / [syn::Result]: success, an error carrying its message,
    or a panic (an [assert!] that fails). *)
Inductive res (A : Type) : Type :=
| Ok (a : A)
| Err (msg : string)
| Panic (msg : string).
Arguments Ok {A} a.
Arguments Err {A} msg.
Arguments Panic {A} msg.

Definition res_bind {A B} (r : res A) (k : A -> res B) : res B :=
  match r with
  | Ok a => k a
  | Err m => Err m
  | Panic m => Panic m
  end.

Definition is_ok {A} (r : res A) : bool :=
  match r with Ok _ => true | _ => false end.

Fixpoint res_map {A B} (f : A -> res B) (l : list A) : res (list B) :=
  match l with
  | [] => Ok []
  | x :: xs =>
      res_bind (f x) (fun y => res_bind (res_map f xs) (fun ys => Ok (y :: ys)))
  end.

(** ** Text helpers *)

(** Rust's [{}] formatting of a [usize]. *)
Definition fmt_nat (n : nat) : string := NilEmpty.string_of_uint (Nat.to_uint n).

(** The double quote character, used by Rust's [{:?}] formatting of a [&str]. *)
Definition dq : string := String (ascii_of_nat 34) EmptyString.

(** [mentions needle hay]: [needle] occurs as a substring of [hay]. *)
Fixpoint mentions (needle hay : string) : bool :=
  prefix needle hay ||
  match hay with
  | EmptyString => false
  | String _ t => mentions needle t
  end.

(** ** Data model *)

(** The compiled-in database drivers. *)
Inductive Backend := Postgres | MySql | Sqlite | Mssql.

(** [Database::NAME] of each driver in sqlx-core. *)
Definition NAME (b : Backend) : string :=
  match b with
  | Postgres => "PostgreSQL"
  | MySql => "MySQL"
  | Sqlite => "SQLite"
  | Mssql => "MSSQL"
  end.

(** Cargo features of the crate. *)
Record Features := {
  f_postgres : bool;
  f_mysql : bool;
  f_sqlite : bool;
  f_mssql : bool;
  f_offline : bool
}.

Definition enabled (ft : Features) (b : Backend) : bool :=
  match b with
  | Postgres => f_postgres ft
  | MySql => f_mysql ft
  | Sqlite => f_sqlite ft
  | Mssql => f_mssql ft
  end.

(** A result column of [Describe]: name, reported nullability, native type. *)
Record Column := {
  col_name : string;
  col_nullable : option bool;
  col_type : string
}.

(** [Describe<DB>]: parameter types (possibly unknown) and result columns. *)
Record Describe := {
  params : list (option string);
  columns : list Column
}.

(** [RecordType]; [Scalar] is the variant matched on in [expand_with_data]. *)
Inductive RecordType :=
| Given (ty : string)
| Generated
| Scalar.

(** [QueryMacroInput] (the source span is not modelled). *)
Record QueryMacroInput := {
  src : string;
  record_type : RecordType;
  arg_exprs : list string;
  checked : bool
}.

(** [input.arg_names] as read by [expand_with_data]: one per argument. *)
Definition arg_names (input : QueryMacroInput) : list string := arg_exprs input.

(** [QueryData<DB>] and [DynQueryData]. *)
Record QueryData := {
  query : string;
  describe : Describe;
  hash : string;
  db_name : string
}.

(** [output::RustColumn]: [type_ = None] is a wildcard override. *)
Record RustColumn := {
  ident : string;
  type_ : option string
}.

(** [output::quote_query_as::<DB>(&input, out_ty, &query_args, &columns)]. *)
Record QueryAs := {
  qa_db : Backend;
  qa_out_ty : string;
  qa_src : string;
  qa_cols : list RustColumn
}.

(** The [output] token stream built by [expand_with_data]. *)
Inductive Output :=
| NoRows (db : Backend) (sql : string)
    (* sqlx::query_with::<DB, _>(sql, query_args) *)
| RecordAndQueryAs (fields : list RustColumn) (q : QueryAs)
    (* struct Record { fields } followed by query_as *)
| QueryAsOnly (q : QueryAs)
| ScalarQuery (db : Backend) (ty : string) (sql : string).
    (* sqlx::query_scalar_with::<DB, ty, _>(sql, query_args) *)

(** The [macro_rules! macro_result] token stream returned by the expansion. *)
Record Expansion := {
  exp_arg_names : list string;
  exp_args_tokens : string;
  exp_output : Output
}.

(** Saved query data in [target/sqlx], most recent first. *)
Definition Store := list QueryData.

(** ** The expansion monad: state over the saved query data, with errors *)

Definition M (A : Type) : Type := Store -> res A * Store.

Definition ret {A} (a : A) : M A := fun st => (Ok a, st).

Definition lift {A} (r : res A) : M A := fun st => (r, st).

Definition bind {A B} (m : M A) (k : A -> M B) : M B :=
  fun st =>
    match m st with
    | (Ok a, st') => k a st'
    | (Err e, st') => (Err e, st')
    | (Panic e, st') => (Panic e, st')
    end.

Notation "'let*' x ':=' m 'in' k" := (bind m (fun x => k))
  (at level 200, x name, m at level 100, k at level 200).

(** ** External collaborators *)

Record Collab := {
  (** [Url::parse]: the scheme and the serialized URL *)
  parse_url : string -> res (string * string);
  (** connect to the backend at the URL and describe the query *)
  connect_describe : Backend -> string -> string -> res Describe;
  (** hash of the query text stored with [QueryData] *)
  sha : string -> string;
  (** [args::quote_args] *)
  quote_args : QueryMacroInput -> Describe -> res string;
  (** the backend's native-type to Rust-type table *)
  map_type : Backend -> string -> option string;
  (** whether a column carries a wildcard type override *)
  is_wildcard : string -> bool;
  (** [output::get_scalar_type] *)
  scalar_type : Column -> string;
  (** [fs::read_to_string] *)
  read_to_string : string -> res string;
  (** whether [create_dir_all] and [save_in] succeed *)
  fs_ok : bool
}.

(** Modelled from the spec: one entry of the offline snapshot
    [sqlx-data.json] (section 6): the exact query text, the backend tag and
    the already-abstracted description. *)
Record SnapEntry := {
  e_query : string;
  e_db : string;
  e_describe : Describe
}.

Definition Snapshot := list SnapEntry.

(** The process environment seen by the macro. *)
Record Env := {
  (** [CARGO_MANIFEST_DIR] *)
  cargo_manifest_dir : option string;
  (** [Some e] when a [.env] file exists in the manifest directory and
      loading it fails with [e] *)
  dotenv_error : option string;
  (** [DATABASE_URL], after loading [.env] *)
  database_url : option string;
  (** [sqlx-data.json] in the manifest directory, when it exists *)
  data_file : option Snapshot
}.

Section Pipeline.

Context (c : Collab) (ft : Features).

(** Modelled from the spec: [output::columns_to_rust] (section 4.5, Type
    Mapper).  A column with a wildcard override gets no type (the user's
    type is used, no nullable wrapping); otherwise the native type is mapped
    through the backend's table (an unmapped type is an error quoting it) and
    wrapped in [Option] when the column is nullable, unknown nullability
    counting as nullable. *)
Definition nullable_of (col : Column) : bool :=
  match col_nullable col with Some b => b | None => true end.

Definition column_to_rust (b : Backend) (col : Column) : res RustColumn :=
  if is_wildcard c (col_name col) then
    Ok {| ident := col_name col; type_ := None |}
  else
    match map_type c b (col_type col) with
    | None => Err ("unsupported type " ++ col_type col ++ " of column " ++ col_name col)
    | Some t =>
        Ok {| ident := col_name col;
              type_ := Some (if nullable_of col then "Option<" ++ t ++ ">" else t) |}
    end.

Definition columns_to_rust (b : Backend) (d : Describe) : res (list RustColumn) :=
  res_map (column_to_rust b) (columns d).

Definition has_wildcard (cols : list RustColumn) : bool :=
  existsb (fun rc => match type_ rc with None => true | Some _ => false end) cols.

Definition no_columns_msg : string :=
  "query produces no columns but this macro variant expects columns".

Definition wildcard_msg : string :=
  "columns may not have wildcard overrides in `query!()` or `query_unchecked!()".

Definition scalar_count_msg (n : nat) : string :=
  "expected exactly one column from query, got " ++ fmt_nat n.

Definition param_count_msg (expected got : nat) : string :=
  "expected " ++ fmt_nat expected ++ " parameters, got " ++ fmt_nat got.

(** The [let output = ...] block of [expand_with_data] (mod.rs 197-265). *)
Definition expand_output (b : Backend) (input : QueryMacroInput) (data : QueryData)
  : res Output :=
  let d := describe data in
  match columns d with
  | [] =>
      match record_type input with
      | Generated => Ok (NoRows b (src input))
      | _ => Err no_columns_msg
      end
  | c0 :: _ =>
      match record_type input with
      | Generated =>
          res_bind (columns_to_rust b d) (fun cols =>
            if has_wildcard cols then Err wildcard_msg
            else Ok (RecordAndQueryAs cols
                       {| qa_db := b; qa_out_ty := "Record";
                          qa_src := src input; qa_cols := cols |}))
      | Given out_ty =>
          res_bind (columns_to_rust b d) (fun cols =>
            Ok (QueryAsOnly {| qa_db := b; qa_out_ty := out_ty;
                               qa_src := src input; qa_cols := cols |}))
      | Scalar =>
          if negb (Nat.eqb (List.length (columns d)) 1) then Err (scalar_count_msg (List.length (columns d)))
          else Ok (ScalarQuery b (scalar_type c c0) (src input))
      end
  end.

(** [data.save_in(save_dir, ..)] after [create_dir_all(&save_dir)]. *)
Definition save_in (data : QueryData) : M unit :=
  fun st =>
    if fs_ok c then (Ok tt, data :: st)
    else (Err "failed to write query data to target/sqlx", st).

(** [expand_with_data::<DB>] *)
Definition expand_with_data (b : Backend) (input : QueryMacroInput) (data : QueryData)
  : M Expansion :=
  if negb (Nat.eqb (List.length (arg_names input)) (List.length (params (describe data)))) then
    lift (Err (param_count_msg (List.length (params (describe data))) (List.length (arg_names input))))
  else
    let* args_tokens := lift (quote_args c input (describe data)) in
    let* output := lift (expand_output b input data) in
    let ret_tokens := {| exp_arg_names := arg_names input;
                         exp_args_tokens := args_tokens;
                         exp_output := output |} in
    let* _u := (if f_offline ft then save_in data else ret tt) in
    ret ret_tokens.

(** ** Backend selection and the live path *)

(** [QueryData::from_db]: the description of [src] obtained from a live
    connection, tagged with the backend's name. *)
Definition from_db (b : Backend) (query_src : string) (d : Describe) : QueryData :=
  {| query := query_src; describe := d; hash := sha c query_src; db_name := NAME b |}.

(** One compiled-in arm of [expand_from_db]: connect, describe, expand. *)
Definition expand_live (b : Backend) (input : QueryMacroInput) (url : string)
  : M Expansion :=
  let* d := lift (connect_describe c b url (src input)) in
  expand_with_data b input (from_db b (src input) d).

Definition disabled_msg (b : Backend) : string :=
  match b with
  | Postgres => "database URL has the scheme of a PostgreSQL database but the `postgres` feature is not enabled"
  | Mssql => "database URL has the scheme of a MSSQL database but the `mssql` feature is not enabled"
  | MySql => "database URL has the scheme of a MySQL/MariaDB database but the `mysql` feature is not enabled"
  | Sqlite => "database URL has the scheme of a SQLite database but the `sqlite` feature is not enabled"
  end.

Definition unknown_scheme_msg (scheme : string) : string :=
  "unknown database URL scheme " ++ dq ++ scheme ++ dq.

(** [expand_from_db]: the match on [db_url.scheme()]; for each driver exactly
    one of its two [cfg] arms is compiled in. *)
Definition expand_from_db (input : QueryMacroInput) (db_url : string) : M Expansion :=
  let* u := lift (parse_url c db_url) in
  let (scheme, url) := u in
  if (scheme =? "postgres") || (scheme =? "postgresql") then
    if f_postgres ft then expand_live Postgres input url
    else lift (Err (disabled_msg Postgres))
  else if (scheme =? "mssql") || (scheme =? "sqlserver") then
    if f_mssql ft then expand_live Mssql input url
    else lift (Err (disabled_msg Mssql))
  else if (scheme =? "mysql") || (scheme =? "mariadb") then
    if f_mysql ft then expand_live MySql input url
    else lift (Err (disabled_msg MySql))
  else if scheme =? "sqlite" then
    if f_sqlite ft then expand_live Sqlite input url
    else lift (Err (disabled_msg Sqlite))
  else lift (Err (unknown_scheme_msg scheme)).

(** ** The offline path *)

(** Modelled from the spec: [DynQueryData::from_data_file] (section 4.4,
    read path): the entry of the snapshot whose query text is exactly the
    current source; no entry is a hard error asking for regeneration. *)
Definition from_data_file (snap : Snapshot) (query_src : string) : res QueryData :=
  match find (fun e => e_query e =? query_src) snap with
  | Some e =>
      Ok {| query := e_query e; describe := e_describe e;
            hash := sha c (e_query e); db_name := e_db e |}
  | None =>
      Err ("failed to find data for query " ++ query_src
           ++ "; run `cargo sqlx prepare` to regenerate sqlx-data.json")
  end.

(** Modelled from the spec: [QueryData::<DB>::from_dyn_data] (section 9),
    the specialization of a cached entry to backend [b], which checks the
    entry's backend tag. *)
Definition from_dyn_data (b : Backend) (q : QueryData) : res QueryData :=
  if NAME b =? db_name q then Ok q
  else Err ("expected query data for " ++ NAME b ++ ", got data for " ++ db_name q).

Definition not_enabled_msg (name : string) : string :=
  "found query data for " ++ name ++ " but the feature for that database was not enabled".

(** [expand_from_file] (compiled only with the [offline] feature); each
    [cfg] arm of the match exists only when its feature is enabled. *)
Definition expand_from_file (input : QueryMacroInput) (snap : Snapshot) : M Expansion :=
  let* query_data := lift (from_data_file snap (src input)) in
  if db_name query_data =? EmptyString then
    lift (Panic "assertion failed: !query_data.db_name.is_empty()")
  else if f_postgres ft && (db_name query_data =? NAME Postgres) then
    let* data := lift (from_dyn_data Postgres query_data) in
    expand_with_data Postgres input data
  else if f_mysql ft && (db_name query_data =? NAME MySql) then
    let* data := lift (from_dyn_data MySql query_data) in
    expand_with_data MySql input data
  else if f_sqlite ft && (db_name query_data =? NAME Sqlite) then
    let* data := lift (from_dyn_data Sqlite query_data) in
    expand_with_data Sqlite input data
  else lift (Err (not_enabled_msg (db_name query_data))).

Definition no_url_offline_msg : string :=
  "`DATABASE_URL` must be set, or `cargo sqlx prepare` must have been run and sqlx-data.json must exist, to use query macros".

Definition no_url_msg : string := "`DATABASE_URL` must be set to use query macros".

(** [expand_input] *)
Definition expand_input (env : Env) (input : QueryMacroInput) : M Expansion :=
  match cargo_manifest_dir env with
  | None => lift (Err "`CARGO_MANIFEST_DIR` must be set")
  | Some manifest_dir =>
      match dotenv_error env with
      | Some e => lift (Err ("failed to load environment from " ++ manifest_dir ++ "/.env, " ++ e))
      | None =>
          match database_url env with
          | Some db_url => expand_from_db input db_url
          | None =>
              if f_offline ft then
                match data_file env with
                | Some snap => expand_from_file input snap
                | None => lift (Err no_url_offline_msg)
                end
              else lift (Err no_url_msg)
          end
      end
  end.

End Pipeline.

(** ** Query input: [input.rs] *)

(** Unix [std::path::Path] for the file argument of [query_file!]. *)
Module UnixPath.

Definition slash : ascii := "/".

(** [Path::is_absolute]: the path starts at the root. *)
Definition is_absolute (p : string) : bool :=
  match p with
  | String a _ => Ascii.eqb a slash
  | EmptyString => false
  end.

(** The pieces of [p] between separators. *)
Fixpoint segments (p : string) : list string :=
  match p with
  | EmptyString => [EmptyString]
  | String a r =>
      let rest := segments r in
      if Ascii.eqb a slash then EmptyString :: rest
      else match rest with
           | s :: ss => String a s :: ss
           | [] => [String a EmptyString]
           end
  end.

(** [Path::components] of a relative path: empty pieces and [.] pieces are
    dropped, except a leading [.] ([Component::CurDir]). *)
Definition components (p : string) : list string :=
  match segments p with
  | s0 :: rest =>
      (if s0 =? "." then ["."] else if s0 =? EmptyString then [] else [s0])
        ++ filter (fun s => negb ((s =? EmptyString) || (s =? "."))) rest
  | [] => []
  end.

(** [Path::parent] of a relative path, as its list of components: [None]
    for a path with no components. *)
Definition parent (p : string) : option (list string) :=
  match rev (components p) with
  | [] => None
  | _ :: init => Some (rev init)
  end.

(** [path.parent().map_or(false, |parent| !parent.as_os_str().is_empty())] *)
Definition has_nonempty_parent (p : string) : bool :=
  match parent p with
  | Some par => negb (match par with [] => true | _ => false end)
  | None => false
  end.

(** [Path::join] of a relative path onto a base directory. *)
Definition join (base p : string) : string :=
  match base with
  | EmptyString => p
  | _ =>
      match rev (list_ascii_of_string base) with
      | a :: _ => if Ascii.eqb a slash then base ++ p else base ++ "/" ++ p
      | [] => p
      end
  end.

End UnixPath.

Section Input.

Context (c : Collab).

Definition absolute_msg : string := "absolute paths will only work on the current machine".

Definition relative_msg : string :=
  "paths relative to the current file's directory are not currently supported".

Definition manifest_msg : string := "CARGO_MANIFEST_DIR is not set; please use Cargo to build".

(** [read_file_src] *)
Definition read_file_src (env : Env) (source : string) : res string :=
  if UnixPath.is_absolute source then Err absolute_msg
  else if negb (UnixPath.is_absolute source) && negb (UnixPath.has_nonempty_parent source)
  then Err relative_msg
  else
    match cargo_manifest_dir env with
    | None => Err manifest_msg
    | Some base_dir =>
        let file_path := UnixPath.join base_dir source in
        match read_to_string c file_path with
        | Ok s => Ok s
        | Err e => Err ("failed to read query file at " ++ file_path ++ ": " ++ e)
        | Panic m => Panic m
        end
    end.

(** [QuerySrc] *)
Inductive QuerySrc :=
| SrcString (s : string)
| SrcFile (f : string).

(** [QuerySrc::resolve] *)
Definition resolve (env : Env) (q : QuerySrc) : res string :=
  match q with
  | SrcString s => Ok s
  | SrcFile f => read_file_src env f
  end.

(** The value after [key =], by lexical category: string literals joined by
    [+] ([VLitStrs], never empty), a [bool] literal, an array expression, or
    a type. *)
Inductive Value :=
| VLitStrs (ss : list string)
| VLitBool (b : bool)
| VArray (es : list string)
| VType (t : string).

(** One [key = value] pair of the macro input; the key is the text of the
    identifier token in key position (Rust keywords are identifier tokens
    too, and are refused by [syn] below). *)
Definition Item : Type := string * Value.

(** The words [syn]'s [Ident] parser refuses ([accept_as_ident] in syn 1):
    [_] and the strict and reserved keywords. *)
Definition syn_keywords : list string :=
  ["_"; "abstract"; "as"; "become"; "box"; "break"; "const"; "continue";
   "crate"; "do"; "else"; "enum"; "extern"; "false"; "final"; "fn";
   "for"; "if"; "impl"; "in"; "let"; "loop"; "macro"; "match";
   "mod"; "move"; "mut"; "override"; "priv"; "pub"; "ref";
   "return"; "Self"; "self"; "static"; "struct"; "super"; "trait";
   "true"; "type"; "typeof"; "unsafe"; "unsized"; "use"; "virtual";
   "where"; "while"; "yield"].

Definition accept_as_ident (k : string) : bool :=
  negb (existsb (String.eqb k) syn_keywords).

(** The locals of [QueryMacroInput::parse]. *)
Record ParseState := {
  ps_query_src : option QuerySrc;
  ps_args : option (list string);
  ps_record_type : RecordType;
  ps_checked : bool
}.

Definition init_state : ParseState :=
  {| ps_query_src := None; ps_args := None;
     ps_record_type := Generated; ps_checked := true |}.

Definition set_src (st : ParseState) (q : QuerySrc) : ParseState :=
  {| ps_query_src := Some q; ps_args := ps_args st;
     ps_record_type := ps_record_type st; ps_checked := ps_checked st |}.
Definition set_args (st : ParseState) (es : list string) : ParseState :=
  {| ps_query_src := ps_query_src st; ps_args := Some es;
     ps_record_type := ps_record_type st; ps_checked := ps_checked st |}.
Definition set_record (st : ParseState) (r : RecordType) : ParseState :=
  {| ps_query_src := ps_query_src st; ps_args := ps_args st;
     ps_record_type := r; ps_checked := ps_checked st |}.
Definition set_checked (st : ParseState) (b : bool) : ParseState :=
  {| ps_query_src := ps_query_src st; ps_args := ps_args st;
     ps_record_type := ps_record_type st; ps_checked := b |}.

(** One iteration of the [while !input.is_empty()] loop: the key is read
    with [input.parse::<Ident>()], then dispatched on. *)
Definition parse_item (st : ParseState) (it : Item) : res ParseState :=
  let (key, v) := it in
  if negb (accept_as_ident key) then Err "expected identifier"
  else if key =? "source" then
    match v with
    | VLitStrs (s :: ss) => Ok (set_src st (SrcString (String.concat EmptyString (s :: ss))))
    | _ => Err "expected string literal"
    end
  else if key =? "source_file" then
    match v with
    | VLitStrs [s] => Ok (set_src st (SrcFile s))
    | VLitStrs (_ :: _ :: _) => Err "expected `,`"
    | _ => Err "expected string literal"
    end
  else if key =? "args" then
    match v with
    | VArray es => Ok (set_args st es)
    | _ => Err "expected square brackets"
    end
  else if key =? "record" then
    match v with
    | VType t => Ok (set_record st (Given t))
    | _ => Err "expected type"
    end
  else if key =? "checked" then
    match v with
    | VLitBool b => Ok (set_checked st b)
    | _ => Err "expected boolean literal"
    end
  else Err ("unexpected input key: " ++ key).

Fixpoint parse_items (st : ParseState) (items : list Item) : res ParseState :=
  match items with
  | [] => Ok st
  | it :: rest => res_bind (parse_item st it) (fun st' => parse_items st' rest)
  end.

(** [input.error(..)] after the loop: the stream is at its end, and [syn]
    prefixes an error raised there with "unexpected end of input, ". *)
Definition missing_src_msg : string :=
  "unexpected end of input, " ++ "expected `source` or `source_file` key".

(** [QueryMacroInput::parse] *)
Definition parse (env : Env) (items : list Item) : res QueryMacroInput :=
  res_bind (parse_items init_state items) (fun st =>
    match ps_query_src st with
    | None => Err missing_src_msg
    | Some q =>
        res_bind (resolve env q) (fun s =>
          Ok {| src := s; record_type := ps_record_type st;
                arg_exprs := match ps_args st with Some es => es | None => [] end;
                checked := ps_checked st |})
    end).

End Input.

(** ** Spec-side definitions used to state the claims *)

(** The backend a URL scheme names, as the spec's section 6 lists them:
    [postgres]/[postgresql], [mysql]/[mariadb], [sqlite], [mssql]/[sqlserver]. *)
Definition scheme_backend (scheme : string) : option Backend :=
  if (scheme =? "postgres") || (scheme =? "postgresql") then Some Postgres
  else if (scheme =? "mysql") || (scheme =? "mariadb") then Some MySql
  else if scheme =? "sqlite" then Some Sqlite
  else if (scheme =? "mssql") || (scheme =? "sqlserver") then Some Mssql
  else None.

(** The cargo feature of each backend. *)
Definition feature_name (b : Backend) : string :=
  match b with
  | Postgres => "`postgres`"
  | MySql => "`mysql`"
  | Sqlite => "`sqlite`"
  | Mssql => "`mssql`"
  end.

(** How an expansion with result [r] may change the saved query data: one
    entry is added when the [offline] feature is enabled and the expansion
    succeeded, and nothing changes otherwise. *)
Definition saves_on_success {A} (ft : Features) (r : res A) (st st' : Store) : Prop :=
  if f_offline ft && is_ok r then exists q, st' = q :: st else st' = st.

(** The value of the last [checked = b] item of the macro input. *)
Fixpoint last_checked (items : list Item) : option bool :=
  match items with
  | [] => None
  | (k, v) :: rest =>
      match last_checked rest with
      | Some b => Some b
      | None =>
          if k =? "checked" then
            match v with VLitBool b => Some b | _ => None end
          else None
      end
  end.

(** Keys that set the query source. *)
Definition is_src_key (k : string) : bool := (k =? "source") || (k =? "source_file").

(** The last item of the macro input whose key satisfies [p]. *)
Fixpoint last_keyed (p : string -> bool) (items : list Item) : option Item :=
  match items with
  | [] => None
  | (k, v) :: rest =>
      match last_keyed p rest with
      | Some it => Some it
      | None => if p k then Some (k, v) else None
      end
  end.

(** The query text carried by an [Output]. *)
Definition output_sql (o : Output) : string :=
  match o with
  | NoRows _ s => s
  | RecordAndQueryAs _ q => qa_src q
  | QueryAsOnly q => qa_src q
  | ScalarQuery _ _ s => s
  end.

(** The backend an [Output] is generated for. *)
Definition output_db (o : Output) : Backend :=
  match o with
  | NoRows b _ => b
  | RecordAndQueryAs _ q => qa_db q
  | QueryAsOnly q => qa_db q
  | ScalarQuery b _ _ => b
  end.

(** ** A concrete configuration, used to evaluate the pipeline *)

Module Demo.

(** The text of [u] before its first [:]. *)
Fixpoint scheme_of (u : string) : option string :=
  match u with
  | EmptyString => None
  | String a r =>
      if Ascii.eqb a ":" then Some EmptyString
      else match scheme_of r with
           | Some s => Some (String a s)
           | None => None
           end
  end.

Definition collab : Collab := {|
  parse_url := fun u =>
    match scheme_of u with
    | Some s => Ok (s, u)
    | None => Err "relative URL without a base"
    end;
  connect_describe := fun _ _ _ =>
    Ok {| params := [];
          columns := [{| col_name := "id"; col_nullable := Some false; col_type := "INT4" |}] |};
  sha := fun q => q;
  quote_args := fun _ _ => Ok "query_args";
  map_type := fun _ t =>
    if t =? "INT4" then Some "i32" else if t =? "TEXT" then Some "String" else None;
  is_wildcard := fun n => mentions ": _" n;
  scalar_type := fun _ => "i32";
  read_to_string := fun p => Ok ("SELECT 1 -- " ++ p);
  fs_ok := true
|}.

Definition all_features : Features :=
  {| f_postgres := true; f_mysql := true; f_sqlite := true; f_mssql := true; f_offline := true |}.

Definition online_only : Features :=
  {| f_postgres := true; f_mysql := true; f_sqlite := true; f_mssql := true; f_offline := false |}.

Definition col_id : Column := {| col_name := "id"; col_nullable := Some false; col_type := "INT4" |}.
Definition col_name_wild : Column := {| col_name := "name: _"; col_nullable := None; col_type := "TEXT" |}.
Definition col_text : Column := {| col_name := "title"; col_nullable := None; col_type := "TEXT" |}.

Definition desc (k : nat) (cols : list Column) : Describe :=
  {| params := repeat (Some "INT4") k; columns := cols |}.

Definition qd (k : nat) (cols : list Column) : QueryData :=
  {| query := "SELECT 1"; describe := desc k cols; hash := "SELECT 1"; db_name := "PostgreSQL" |}.

Definition input (rt : RecordType) (args : list string) : QueryMacroInput :=
  {| src := "SELECT 1"; record_type := rt; arg_exprs := args; checked := true |}.

Definition env (url : option string) (snap : option Snapshot) : Env :=
  {| cargo_manifest_dir := Some "/app"; dotenv_error := None;
     database_url := url; data_file := snap |}.

Definition snap (db : string) : Snapshot :=
  [{| e_query := "SELECT 1"; e_db := db; e_describe := desc 0 [col_id] |}].

(** The same collaborators, with writing under [target/sqlx] failing. *)
Definition broken_fs : Collab := {|
  parse_url := parse_url collab; connect_describe := connect_describe collab;
  sha := sha collab; quote_args := quote_args collab; map_type := map_type collab;
  is_wildcard := is_wildcard collab; scalar_type := scalar_type collab;
  read_to_string := read_to_string collab; fs_ok := false
|}.

(** The same collaborators, with the database unreachable. *)
Definition unreachable : Collab := {|
  parse_url := parse_url collab; connect_describe := fun _ _ _ => Err "connection refused";
  sha := sha collab; quote_args := quote_args collab; map_type := map_type collab;
  is_wildcard := is_wildcard collab; scalar_type := scalar_type collab;
  read_to_string := read_to_string collab; fs_ok := fs_ok collab
|}.

End Demo.

(** ** Checks on concrete inputs *)

Example fmt_nat_12 : fmt_nat 12 = "12".
Proof. reflexivity. Qed.

Example scalar_two_columns :
  expand_output Demo.collab Postgres (Demo.input Scalar []) (Demo.qd 0 [Demo.col_id; Demo.col_text])
  = Err "expected exactly one column from query, got 2".
Proof. reflexivity. Qed.

Example generated_record :
  fst (expand_with_data Demo.collab Demo.all_features Postgres (Demo.input Generated ["x"])
         (Demo.qd 1 [Demo.col_id; Demo.col_text]) [])
  = Ok {| exp_arg_names := ["x"]; exp_args_tokens := "query_args";
          exp_output := RecordAndQueryAs
            [{| ident := "id"; type_ := Some "i32" |};
             {| ident := "title"; type_ := Some "Option<String>" |}]
            {| qa_db := Postgres; qa_out_ty := "Record"; qa_src := "SELECT 1";
               qa_cols := [{| ident := "id"; type_ := Some "i32" |};
                           {| ident := "title"; type_ := Some "Option<String>" |}] |} |}.
Proof. reflexivity. Qed.

Example params_mismatch :
  fst (expand_with_data Demo.collab Demo.all_features Postgres (Demo.input Generated [])
         (Demo.qd 1 []) [])
  = Err "expected 1 parameters, got 0".
Proof. reflexivity. Qed.

Example unknown_scheme :
  fst (expand_from_db Demo.collab Demo.all_features (Demo.input Generated []) "redis://x" [])
  = Err ("unknown database URL scheme " ++ dq ++ "redis" ++ dq).
Proof. reflexivity. Qed.

Example path_rules :
  UnixPath.is_absolute "/q.sql" = true /\
  UnixPath.has_nonempty_parent "q.sql" = false /\
  UnixPath.has_nonempty_parent "queries/q.sql" = true /\
  UnixPath.has_nonempty_parent "./q.sql" = true /\
  UnixPath.has_nonempty_parent "queries/" = false /\
  UnixPath.join "/app" "queries/q.sql" = "/app/queries/q.sql".
Proof. vm_compute. repeat split. Qed.

Example parse_source :
  parse Demo.collab (Demo.env None None)
    [("source", VLitStrs ["SELECT "; "1"]); ("checked", VLitBool false)]
  = Ok {| src := "SELECT 1"; record_type := Generated; arg_exprs := []; checked := false |}.
Proof. reflexivity. Qed.

(** ** Helper lemmas *)

Lemma prefix_app_self (s q : string) : prefix s (s ++ q) = true.
Proof.
  induction s as [|a s IH]; [destruct q; reflexivity|]. simpl.
  destruct (ascii_dec a a) as [_|n]; [exact IH | contradiction n; reflexivity].
Qed.

Lemma mentions_of_prefix (s h : string) : prefix s h = true -> mentions s h = true.
Proof. intros H. destruct h; cbn [mentions]; rewrite H; reflexivity. Qed.

Lemma mentions_app (p s q : string) : mentions s (p ++ s ++ q) = true.
Proof.
  induction p as [|a p IH]; simpl.
  - apply mentions_of_prefix, prefix_app_self.
  - rewrite IH, orb_true_r. reflexivity.
Qed.

Lemma append_empty_r (s : string) : s ++ EmptyString = s.
Proof. induction s as [|a s IH]; simpl; [|rewrite IH]; reflexivity. Qed.

Lemma str_app_assoc (a b d : string) : a ++ (b ++ d) = (a ++ b) ++ d.
Proof. induction a as [|x a IH]; simpl; [|rewrite IH]; reflexivity. Qed.

Lemma mentions_suffix (p s : string) : mentions s (p ++ s) = true.
Proof.
  rewrite <- (append_empty_r s) at 2. apply mentions_app.
Qed.

Lemma mentions_self (s : string) : mentions s s = true.
Proof. apply (mentions_suffix EmptyString). Qed.

Lemma bind_lift {A B} (r : res A) (k : A -> M B) (st : Store) :
  bind (lift r) k st =
  match r with
  | Ok a => k a st
  | Err e => (Err e, st)
  | Panic e => (Panic e, st)
  end.
Proof. destruct r; reflexivity. Qed.

Lemma scalar_count_msg_names (n : nat) : mentions (fmt_nat n) (scalar_count_msg n) = true.
Proof. apply mentions_suffix. Qed.

Lemma param_count_msg_names (k a : nat) :
  mentions (fmt_nat k) (param_count_msg k a) = true /\
  mentions (fmt_nat a) (param_count_msg k a) = true.
Proof.
  unfold param_count_msg. split.
  - apply mentions_app.
  - rewrite !str_app_assoc. apply mentions_suffix.
Qed.

(** ** C1: the shape / column-count matrix *)

(** C1 (as amended).  The output strategy of [expand_with_data] is decided by
    the record type and the column count n: zero columns with a generated
    record give the no-row [query_with] binding; zero columns with any other
    record type (the scalar one included) give the "no columns" error; with
    the scalar record type, one column gives the scalar binding and n >= 2
    columns give an error whose message names n. *)
Theorem expand_output_matrix (c : Collab) (b : Backend) (input : QueryMacroInput)
  (data : QueryData) :
  let n := List.length (columns (describe data)) in
  (n = 0 -> record_type input = Generated ->
     expand_output c b input data = Ok (NoRows b (src input))) /\
  (n = 0 -> record_type input <> Generated ->
     expand_output c b input data = Err no_columns_msg) /\
  (record_type input = Scalar -> n = 1 ->
     exists ty, expand_output c b input data = Ok (ScalarQuery b ty (src input))) /\
  (record_type input = Scalar -> 2 <= n ->
     expand_output c b input data = Err (scalar_count_msg n) /\
     mentions (fmt_nat n) (scalar_count_msg n) = true).
Proof.
  cbv zeta. unfold expand_output.
  destruct (columns (describe data)) as [|c0 [|c1 l]];
    cbn -[mentions scalar_count_msg fmt_nat no_columns_msg].
  - split; [intros _ ->; reflexivity|].
    split; [intros _ H; destruct (record_type input); congruence|].
    split; intros _ H; lia.
  - split; [discriminate|]. split; [discriminate|].
    split; [intros -> _; eexists; reflexivity | intros _ H; lia].
  - split; [discriminate|]. split; [discriminate|].
    split; [intros _ H; discriminate|].
    intros -> _. split; [reflexivity | apply scalar_count_msg_names].
Qed.

Lemma expand_output_matrix_witness :
  expand_output Demo.collab Postgres (Demo.input Generated []) (Demo.qd 0 [])
    = Ok (NoRows Postgres "SELECT 1") /\
  expand_output Demo.collab Postgres (Demo.input (Given "User") []) (Demo.qd 0 [])
    = Err no_columns_msg /\
  (exists ty, expand_output Demo.collab Postgres (Demo.input Scalar []) (Demo.qd 0 [Demo.col_id])
    = Ok (ScalarQuery Postgres ty "SELECT 1")) /\
  expand_output Demo.collab Postgres (Demo.input Scalar []) (Demo.qd 0 [Demo.col_id; Demo.col_text])
    = Err (scalar_count_msg 2).
Proof.
  split; [|split; [|split]].
  - apply (expand_output_matrix Demo.collab Postgres (Demo.input Generated []) (Demo.qd 0 []));
      reflexivity.
  - apply (expand_output_matrix Demo.collab Postgres (Demo.input (Given "User") []) (Demo.qd 0 []));
      [reflexivity | discriminate].
  - apply (expand_output_matrix Demo.collab Postgres (Demo.input Scalar []) (Demo.qd 0 [Demo.col_id]));
      reflexivity.
  - apply (expand_output_matrix Demo.collab Postgres (Demo.input Scalar [])
             (Demo.qd 0 [Demo.col_id; Demo.col_text])); [reflexivity | simpl; lia].
Defined.

(** C1 fails as stated at zero columns with the scalar record type: the
    error is the "no columns" one, which does not name the count 0. *)
Lemma expand_output_scalar_zero_columns :
  expand_output Demo.collab Postgres (Demo.input Scalar []) (Demo.qd 0 [])
    = Err no_columns_msg /\
  mentions (fmt_nat 0) no_columns_msg = false.
Proof. split; reflexivity. Qed.

(** ** Facts about [expand_with_data] *)

Lemma res_map_ok {A B} (f : A -> res B) (l : list A) (l' : list B) :
  res_map f l = Ok l' -> Forall2 (fun x y => f x = Ok y) l l'.
Proof.
  revert l'. induction l as [|x xs IH]; simpl; intros l' H.
  - inversion H. constructor.
  - destruct (f x) eqn:Ef; simpl in H; try discriminate.
    destruct (res_map f xs) eqn:Er; simpl in H; try discriminate.
    inversion H; subst. constructor; [exact Ef | apply IH; reflexivity].
Qed.

Lemma expand_with_data_ok_inv (c : Collab) (ft : Features) (b : Backend)
  (input : QueryMacroInput) (data : QueryData) (st : Store) (e : Expansion) :
  fst (expand_with_data c ft b input data st) = Ok e ->
  List.length (arg_names input) = List.length (params (describe data)) /\
  quote_args c input (describe data) = Ok (exp_args_tokens e) /\
  expand_output c b input data = Ok (exp_output e).
Proof.
  unfold expand_with_data.
  destruct (Nat.eqb (List.length (arg_names input)) (List.length (params (describe data))))
    eqn:Ek; simpl; [|discriminate].
  apply Nat.eqb_eq in Ek.
  rewrite !bind_lift.
  destruct (quote_args c input (describe data)) as [t| |]; try discriminate.
  destruct (expand_output c b input data) as [o| |]; try discriminate.
  destruct (f_offline ft); unfold bind, ret, save_in; [destruct (fs_ok c)|];
    simpl; try discriminate; intros H; inversion H; subst; simpl; auto.
Qed.

Lemma columns_to_rust_wildcard (c : Collab) (b : Backend) (d : Describe)
  (cols : list RustColumn) :
  columns_to_rust c b d = Ok cols ->
  (exists col, In col (columns d) /\ is_wildcard c (col_name col) = true) ->
  has_wildcard cols = true.
Proof.
  intros H [col [Hin Hw]].
  apply res_map_ok in H.
  induction H as [|x y xs ys Hxy Hrest IH].
  - destruct Hin.
  - unfold has_wildcard. simpl. destruct Hin as [->|Hin].
    + unfold column_to_rust in Hxy. rewrite Hw in Hxy. inversion Hxy; subst. reflexivity.
    + apply orb_true_iff. right. apply IH. exact Hin.
Qed.

(** The column list of [columns_to_rust] when every column without a
    wildcard override has a mapped type. *)
Lemma columns_to_rust_spec (c : Collab) (b : Backend) (cs : list Column) :
  (forall col, In col cs -> is_wildcard c (col_name col) = false ->
     map_type c b (col_type col) <> None) ->
  exists cols,
    res_map (column_to_rust c b) cs = Ok cols /\
    Forall2 (fun col rc => ident rc = col_name col /\
               (is_wildcard c (col_name col) = true -> type_ rc = None) /\
               (is_wildcard c (col_name col) = false ->
                  exists t', map_type c b (col_type col) = Some t' /\
                    type_ rc = Some (if nullable_of col then "Option<" ++ t' ++ ">" else t')))
            cs cols.
Proof.
  induction cs as [|x xs IH]; intros Hmap.
  - exists []. split; [reflexivity | constructor].
  - destruct IH as [cols [Hr Hf]].
    { intros col Hin. apply Hmap. right. exact Hin. }
    simpl. rewrite Hr. unfold column_to_rust at 1.
    destruct (is_wildcard c (col_name x)) eqn:Hw.
    + eexists. simpl. split; [reflexivity|].
      constructor; [|exact Hf]. simpl. repeat split; intros; congruence.
    + destruct (map_type c b (col_type x)) as [t'|] eqn:Ht.
      * eexists. simpl. split; [reflexivity|].
        constructor; [|exact Hf]. simpl. repeat split; [congruence|].
        intros _. exists t'. split; [exact Ht | reflexivity].
      * exfalso. apply (Hmap x); [left; reflexivity | exact Hw | exact Ht].
Qed.

(** ** C2: the argument-count check *)

(** C2.  When the number of arguments [a] differs from the number [k] of
    parameters of the description, [expand_with_data] fails with
    "expected k parameters, got a", naming both counts, before quoting the
    arguments, mapping a type or assembling the output (the result does not
    depend on any of them, nor is anything saved); with exactly [k]
    arguments the check passes, and the expansion succeeds as soon as
    argument quoting, output assembly and saving do. *)
Theorem expand_with_data_param_check (c : Collab) (ft : Features) (b : Backend)
  (input : QueryMacroInput) (data : QueryData) (st : Store) :
  let k := List.length (params (describe data)) in
  let a := List.length (arg_names input) in
  (a <> k ->
     expand_with_data c ft b input data st = (Err (param_count_msg k a), st) /\
     mentions (fmt_nat k) (param_count_msg k a) = true /\
     mentions (fmt_nat a) (param_count_msg k a) = true) /\
  (a = k -> forall t o,
     quote_args c input (describe data) = Ok t ->
     expand_output c b input data = Ok o ->
     fs_ok c = true ->
     exists st', expand_with_data c ft b input data st =
       (Ok {| exp_arg_names := arg_names input; exp_args_tokens := t; exp_output := o |}, st')).
Proof.
  cbv zeta. split.
  - intros Hne. split; [|apply param_count_msg_names].
    unfold expand_with_data. apply Nat.eqb_neq in Hne. rewrite Hne. reflexivity.
  - intros Heq t o Hq Ho Hfs. unfold expand_with_data.
    apply Nat.eqb_eq in Heq. rewrite Heq. simpl negb. cbv iota.
    cbv [bind lift ret save_in]. rewrite Hq, Ho.
    destruct (f_offline ft); [rewrite Hfs|]; eexists; reflexivity.
Qed.

Lemma expand_with_data_param_check_witness :
  expand_with_data Demo.collab Demo.all_features Postgres (Demo.input Generated [])
    (Demo.qd 1 []) [] = (Err (param_count_msg 1 0), []) /\
  exists st', expand_with_data Demo.collab Demo.all_features Postgres
    (Demo.input Generated ["x"]) (Demo.qd 1 []) [] =
    (Ok {| exp_arg_names := ["x"]; exp_args_tokens := "query_args";
           exp_output := NoRows Postgres "SELECT 1" |}, st').
Proof.
  split.
  - apply (expand_with_data_param_check Demo.collab Demo.all_features Postgres
             (Demo.input Generated []) (Demo.qd 1 []) []).
    simpl. discriminate.
  - apply (expand_with_data_param_check Demo.collab Demo.all_features Postgres
             (Demo.input Generated ["x"]) (Demo.qd 1 []) []); reflexivity.
Defined.

(** ** C3: wildcard overrides and the record type *)

(** C3.  Let some result column carry a wildcard type override.  With a
    generated record the expansion never succeeds (the wildcard check rejects
    it once arguments and columns are mapped).  With an existing type
    ([record Given ty]) it succeeds once the argument count matches, the
    arguments are quoted, every other column has a mapped type and the
    data can be saved: the columns are bound in order, the wildcard column
    without a type and so without [Option] wrapping, every other column with
    its mapped type wrapped by its nullability. *)
Theorem wildcard_override_record_type (c : Collab) (ft : Features) (b : Backend)
  (input : QueryMacroInput) (data : QueryData) (st : Store) :
  (exists col, In col (columns (describe data)) /\ is_wildcard c (col_name col) = true) ->
  (record_type input = Generated ->
     is_ok (fst (expand_with_data c ft b input data st)) = false) /\
  (forall ty t, record_type input = Given ty ->
     List.length (arg_names input) = List.length (params (describe data)) ->
     quote_args c input (describe data) = Ok t ->
     (forall col, In col (columns (describe data)) -> is_wildcard c (col_name col) = false ->
        map_type c b (col_type col) <> None) ->
     fs_ok c = true ->
     exists cols st',
       expand_with_data c ft b input data st =
         (Ok {| exp_arg_names := arg_names input; exp_args_tokens := t;
                exp_output := QueryAsOnly {| qa_db := b; qa_out_ty := ty;
                                             qa_src := src input; qa_cols := cols |} |}, st') /\
       Forall2 (fun col rc => ident rc = col_name col /\
                  (is_wildcard c (col_name col) = true -> type_ rc = None) /\
                  (is_wildcard c (col_name col) = false ->
                     exists t', map_type c b (col_type col) = Some t' /\
                       type_ rc = Some (if nullable_of col then "Option<" ++ t' ++ ">" else t')))
               (columns (describe data)) cols).
Proof.
  intros Hw. split.
  - intros Hgen.
    destruct (fst (expand_with_data c ft b input data st)) as [e| |] eqn:He; [|reflexivity..].
    apply expand_with_data_ok_inv in He. destruct He as [_ [_ Ho]].
    exfalso. revert Ho. unfold expand_output.
    destruct Hw as [col [Hin Hwc]].
    destruct (columns (describe data)) as [|c0 l] eqn:Ec; [destruct Hin|].
    rewrite Hgen.
    destruct (columns_to_rust c b (describe data)) as [cols| |] eqn:Ecr; simpl; try discriminate.
    rewrite (columns_to_rust_wildcard c b (describe data) cols Ecr); [discriminate|].
    exists col. rewrite Ec. split; assumption.
  - intros ty t Hgiven Hlen Hq Hmap Hfs.
    destruct (columns_to_rust_spec c b (columns (describe data)) Hmap) as [cols [Hr Hf]].
    destruct (expand_with_data_param_check c ft b input data st) as [_ Hok].
    edestruct Hok as [st' Hst']; [exact Hlen | exact Hq | | exact Hfs |].
    + unfold expand_output.
      destruct Hw as [col [Hin _]].
      destruct (columns (describe data)) as [|c0 l] eqn:Ec; [destruct Hin|].
      rewrite Hgiven. unfold columns_to_rust. rewrite Ec, Hr. reflexivity.
    + exists cols, st'. split; [exact Hst' | exact Hf].
Qed.

Lemma wildcard_override_record_type_witness :
  is_ok (fst (expand_with_data Demo.collab Demo.all_features Postgres
                (Demo.input Generated []) (Demo.qd 0 [Demo.col_id; Demo.col_name_wild]) []))
    = false /\
  exists cols st',
    expand_with_data Demo.collab Demo.all_features Postgres
      (Demo.input (Given "User") []) (Demo.qd 0 [Demo.col_id; Demo.col_name_wild]) [] =
    (Ok {| exp_arg_names := []; exp_args_tokens := "query_args";
           exp_output := QueryAsOnly {| qa_db := Postgres; qa_out_ty := "User";
                                        qa_src := "SELECT 1"; qa_cols := cols |} |}, st') /\
    Forall2 (fun col rc => ident rc = col_name col /\
               (is_wildcard Demo.collab (col_name col) = true -> type_ rc = None) /\
               (is_wildcard Demo.collab (col_name col) = false ->
                  exists t', map_type Demo.collab Postgres (col_type col) = Some t' /\
                    type_ rc = Some (if nullable_of col then "Option<" ++ t' ++ ">" else t')))
            [Demo.col_id; Demo.col_name_wild] cols.
Proof.
  assert (Hw : exists col, In col [Demo.col_id; Demo.col_name_wild] /\
                 is_wildcard Demo.collab (col_name col) = true).
  { exists Demo.col_name_wild. split; [right; left; reflexivity | reflexivity]. }
  split.
  - apply (wildcard_override_record_type Demo.collab Demo.all_features Postgres
             (Demo.input Generated []) (Demo.qd 0 [Demo.col_id; Demo.col_name_wild]) [] Hw).
    reflexivity.
  - apply (wildcard_override_record_type Demo.collab Demo.all_features Postgres
             (Demo.input (Given "User") []) (Demo.qd 0 [Demo.col_id; Demo.col_name_wild]) [] Hw);
      try reflexivity.
    intros col Hin Hnw. simpl in Hin.
    destruct Hin as [<-|[<-|[]]]; simpl; discriminate.
Defined.

(** ** C4: when query data is saved *)

Section Saving.

Context (c : Collab) (ft : Features).

Definition saves_ok {A} (m : M A) : Prop :=
  forall st, saves_on_success ft (fst (m st)) st (snd (m st)).

Lemma saves_ok_err {A} (e : string) : saves_ok (A := A) (lift (Err e)).
Proof. intros st. unfold saves_on_success. simpl. rewrite andb_false_r. reflexivity. Qed.

Lemma saves_ok_panic {A} (e : string) : saves_ok (A := A) (lift (Panic e)).
Proof. intros st. unfold saves_on_success. simpl. rewrite andb_false_r. reflexivity. Qed.

Lemma saves_ok_bind_lift {A B} (r : res A) (k : A -> M B) :
  (forall a, saves_ok (k a)) -> saves_ok (bind (lift r) k).
Proof.
  intros Hk st. rewrite bind_lift.
  destruct r as [a|e|e]; [apply Hk | apply saves_ok_err | apply saves_ok_panic].
Qed.

Lemma expand_with_data_saves (b : Backend) (input : QueryMacroInput) (data : QueryData) :
  saves_ok (expand_with_data c ft b input data).
Proof.
  intros st. unfold expand_with_data.
  destruct (negb _); [apply saves_ok_err|].
  revert st. apply saves_ok_bind_lift. intros t.
  apply saves_ok_bind_lift. intros o. intros st.
  unfold saves_on_success, bind, ret, save_in.
  destruct (f_offline ft); [destruct (fs_ok c)|]; simpl; eauto.
Qed.

Lemma expand_live_saves (b : Backend) (input : QueryMacroInput) (url : string) :
  saves_ok (expand_live c ft b input url).
Proof.
  apply saves_ok_bind_lift. intros d. apply expand_with_data_saves.
Qed.

Lemma expand_from_db_saves (input : QueryMacroInput) (db_url : string) :
  saves_ok (expand_from_db c ft input db_url).
Proof.
  apply saves_ok_bind_lift. intros [scheme url].
  repeat match goal with
         | |- saves_ok (if ?x then _ else _) => destruct x
         end;
    first [apply expand_live_saves | apply saves_ok_err].
Qed.

Lemma expand_from_file_saves (input : QueryMacroInput) (snap : Snapshot) :
  saves_ok (expand_from_file c ft input snap).
Proof.
  apply saves_ok_bind_lift. intros q.
  repeat match goal with
         | |- saves_ok (if ?x then _ else _) => destruct x
         end;
    first [ apply saves_ok_panic | apply saves_ok_err
          | apply saves_ok_bind_lift; intros; apply expand_with_data_saves ].
Qed.

End Saving.

(** C4 (as amended).  Query data is saved by every expansion that succeeds
    while the [offline] feature is enabled, exactly one entry per expansion,
    whether the description came from a live database or from the offline
    snapshot; an expansion that fails, or any expansion without the
    [offline] feature, leaves the saved data unchanged. *)
Theorem expand_input_saves (c : Collab) (ft : Features) (env : Env)
  (input : QueryMacroInput) (st : Store) :
  let r := fst (expand_input c ft env input st) in
  let st' := snd (expand_input c ft env input st) in
  (f_offline ft = true -> is_ok r = true -> exists q, st' = q :: st) /\
  (f_offline ft = false \/ is_ok r = false -> st' = st).
Proof.
  assert (H : saves_ok ft (expand_input c ft env input)).
  { unfold expand_input.
    destruct (cargo_manifest_dir env); [|apply saves_ok_err].
    destruct (dotenv_error env); [apply saves_ok_err|].
    destruct (database_url env); [apply expand_from_db_saves|].
    destruct (f_offline ft); [|apply saves_ok_err].
    destruct (data_file env); [apply expand_from_file_saves | apply saves_ok_err]. }
  specialize (H st). unfold saves_on_success in H. cbv zeta. split.
  - intros Ho Hok. rewrite Ho, Hok in H. exact H.
  - intros [Ho|Hok]; [rewrite Ho in H | rewrite Hok, andb_false_r in H]; exact H.
Qed.

Lemma expand_input_saves_witness :
  (exists q, snd (expand_input Demo.collab Demo.all_features
                   (Demo.env None (Some (Demo.snap "PostgreSQL"))) (Demo.input Generated []) [])
             = [q]) /\
  snd (expand_input Demo.collab Demo.online_only
         (Demo.env None (Some (Demo.snap "PostgreSQL"))) (Demo.input Generated []) []) = [].
Proof.
  split.
  - apply (expand_input_saves Demo.collab Demo.all_features
             (Demo.env None (Some (Demo.snap "PostgreSQL"))) (Demo.input Generated []) []);
      reflexivity.
  - apply (expand_input_saves Demo.collab Demo.online_only
             (Demo.env None (Some (Demo.snap "PostgreSQL"))) (Demo.input Generated []) []).
    left. reflexivity.
Defined.

(** C4 fails as stated: with no [DATABASE_URL], an expansion served from
    the offline snapshot saves the query data again. *)
Lemma expand_input_snapshot_path_saves :
  database_url (Demo.env None (Some (Demo.snap "PostgreSQL"))) = None /\
  is_ok (fst (expand_input Demo.collab Demo.all_features
                (Demo.env None (Some (Demo.snap "PostgreSQL"))) (Demo.input Generated []) []))
    = true /\
  snd (expand_input Demo.collab Demo.all_features
         (Demo.env None (Some (Demo.snap "PostgreSQL"))) (Demo.input Generated []) [])
    = [{| query := "SELECT 1"; describe := Demo.desc 0 [Demo.col_id];
          hash := "SELECT 1"; db_name := "PostgreSQL" |}].
Proof. split; [|split]; reflexivity. Qed.

(** ** C5: dispatch of an offline snapshot entry *)

(** What [expand_from_file] does with the entry found for the query: a
    PostgreSQL, MySQL or SQLite entry whose feature is enabled is specialized
    to that backend and expanded; any other non-empty tag fails with a
    message naming it. *)
Lemma expand_from_file_dispatch (c : Collab) (ft : Features) (input : QueryMacroInput)
  (snap : Snapshot) (st : Store) (q : QueryData) :
  from_data_file c snap (src input) = Ok q ->
  db_name q <> EmptyString ->
  (forall b, b <> Mssql -> db_name q = NAME b -> enabled ft b = true ->
     expand_from_file c ft input snap st = expand_with_data c ft b input q st) /\
  ((forall b, b <> Mssql -> enabled ft b = true -> db_name q <> NAME b) ->
     expand_from_file c ft input snap st = (Err (not_enabled_msg (db_name q)), st) /\
     mentions (db_name q) (not_enabled_msg (db_name q)) = true).
Proof.
  intros Hq Hne. unfold expand_from_file. rewrite bind_lift, Hq.
  apply String.eqb_neq in Hne. rewrite Hne. split.
  - intros b Hb Hn He.
    destruct b; [| | |contradiction Hb; reflexivity]; simpl in He;
      rewrite Hn; cbn -[expand_with_data]; rewrite ?He, ?andb_false_r;
      cbn -[expand_with_data]; unfold from_dyn_data; rewrite ?Hn, ?String.eqb_refl;
      reflexivity.
  - intros Hnot. split; [|apply (mentions_app "found query data for ")].
    assert (H1 : f_postgres ft && (db_name q =? NAME Postgres) = false).
    { destruct (f_postgres ft) eqn:Ef; [|reflexivity]. simpl.
      apply String.eqb_neq, (Hnot Postgres); [discriminate | exact Ef]. }
    assert (H2 : f_mysql ft && (db_name q =? NAME MySql) = false).
    { destruct (f_mysql ft) eqn:Ef; [|reflexivity]. simpl.
      apply String.eqb_neq, (Hnot MySql); [discriminate | exact Ef]. }
    assert (H3 : f_sqlite ft && (db_name q =? NAME Sqlite) = false).
    { destruct (f_sqlite ft) eqn:Ef; [|reflexivity]. simpl.
      apply String.eqb_neq, (Hnot Sqlite); [discriminate | exact Ef]. }
    rewrite H1, H2, H3. reflexivity.
Qed.

(** C5 fails on the code: with the [mssql] and [offline] features enabled and
    no [DATABASE_URL], a snapshot entry tagged [MSSQL] (as the live MSSQL
    path of the same build saves it) is reported as data for a database
    whose feature is not enabled, while the live path handles MSSQL. *)
Lemma expand_input_mssql_snapshot :
  f_mssql Demo.all_features = true /\
  f_offline Demo.all_features = true /\
  expand_input Demo.collab Demo.all_features (Demo.env None (Some (Demo.snap "MSSQL")))
    (Demo.input Generated []) []
    = (Err (not_enabled_msg "MSSQL"), []) /\
  is_ok (fst (expand_input Demo.collab Demo.all_features (Demo.env (Some "mssql://db") None)
                (Demo.input Generated []) [])) = true /\
  db_name (hd (Build_QueryData EmptyString (Demo.desc 0 []) EmptyString EmptyString)
             (snd (expand_input Demo.collab Demo.all_features (Demo.env (Some "mssql://db") None)
                     (Demo.input Generated []) []))) = "MSSQL".
Proof. repeat split; reflexivity. Qed.

(** ** C6: backend selection from the URL scheme *)

Ltac scheme_cases :=
  match goal with
  | |- context [String.eqb ?s ?lit] =>
      is_var s;
      let E := fresh "E" in
      destruct (String.eqb s lit) eqn:E;
      [ apply String.eqb_eq in E; subst; cbn;
        repeat match goal with
               | |- context [if ?b then _ else _] => is_var b; destruct b
               end;
        reflexivity
      | cbn; scheme_cases ]
  | |- _ => reflexivity
  end.

(** C6.  Once the URL parses, [expand_from_db] selects the backend named by
    its scheme and nothing else: aliases select the same backend, a known
    scheme whose feature is compiled in runs the live describe of that one
    backend, a known scheme whose feature is compiled out fails with a
    message naming the feature, and an unknown scheme fails with a message
    naming the scheme. *)
Theorem expand_from_db_selects (c : Collab) (ft : Features) (input : QueryMacroInput)
  (db_url scheme url : string) (st : Store) :
  parse_url c db_url = Ok (scheme, url) ->
  expand_from_db c ft input db_url st =
    match scheme_backend scheme with
    | Some b => if enabled ft b then expand_live c ft b input url st
                else (Err (disabled_msg b), st)
    | None => (Err (unknown_scheme_msg scheme), st)
    end /\
  match scheme_backend scheme with
  | Some b => mentions (feature_name b) (disabled_msg b) = true
  | None => mentions scheme (unknown_scheme_msg scheme) = true
  end.
Proof.
  intros Hp. split.
  - unfold expand_from_db. rewrite bind_lift, Hp. cbv beta iota.
    unfold scheme_backend. destruct ft as [p m s q o]. scheme_cases.
  - destruct (scheme_backend scheme) as [b|].
    + destruct b; reflexivity.
    + unfold unknown_scheme_msg. rewrite str_app_assoc. apply mentions_app.
Qed.

Lemma expand_from_db_selects_witness :
  expand_from_db Demo.collab Demo.all_features (Demo.input Generated []) "postgresql://h/db" []
    = expand_live Demo.collab Demo.all_features Postgres (Demo.input Generated [])
        "postgresql://h/db" [].
Proof.
  apply (expand_from_db_selects Demo.collab Demo.all_features (Demo.input Generated [])
           "postgresql://h/db" "postgresql" "postgresql://h/db" []).
  reflexivity.
Defined.

(** ** C7: file paths of [query_file!] *)

(** C7.  [read_file_src] rejects an absolute path, rejects a path with no
    non-empty parent directory with a different message, reports a missing
    [CARGO_MANIFEST_DIR] with its own message, and otherwise reads the path
    joined onto [CARGO_MANIFEST_DIR]. *)
Theorem read_file_src_rules (c : Collab) (env : Env) (source : string) :
  (UnixPath.is_absolute source = true ->
     read_file_src c env source = Err absolute_msg) /\
  (UnixPath.is_absolute source = false -> UnixPath.has_nonempty_parent source = false ->
     read_file_src c env source = Err relative_msg) /\
  absolute_msg <> relative_msg /\
  (UnixPath.is_absolute source = false -> UnixPath.has_nonempty_parent source = true ->
     cargo_manifest_dir env = None ->
     read_file_src c env source = Err manifest_msg) /\
  (forall base, UnixPath.is_absolute source = false ->
     UnixPath.has_nonempty_parent source = true ->
     cargo_manifest_dir env = Some base ->
     forall s, read_file_src c env source = Ok s <->
               read_to_string c (UnixPath.join base source) = Ok s).
Proof.
  unfold read_file_src.
  split; [intros -> ; reflexivity|].
  split; [intros -> ->; reflexivity|].
  split; [discriminate|].
  split; [intros -> -> ->; reflexivity|].
  intros base -> -> -> s. simpl.
  destruct (read_to_string c (UnixPath.join base source)); split; intros H;
    congruence.
Qed.

Lemma read_file_src_rules_witness :
  read_file_src Demo.collab (Demo.env None None) "/etc/q.sql" = Err absolute_msg /\
  read_file_src Demo.collab (Demo.env None None) "q.sql" = Err relative_msg /\
  read_file_src Demo.collab
    {| cargo_manifest_dir := None; dotenv_error := None; database_url := None;
       data_file := None |} "queries/q.sql" = Err manifest_msg /\
  read_file_src Demo.collab (Demo.env None None) "queries/q.sql"
    = Ok "SELECT 1 -- /app/queries/q.sql".
Proof.
  split; [|split; [|split]].
  - apply (read_file_src_rules Demo.collab (Demo.env None None) "/etc/q.sql"). reflexivity.
  - apply (read_file_src_rules Demo.collab (Demo.env None None) "q.sql"); reflexivity.
  - apply (read_file_src_rules Demo.collab
             {| cargo_manifest_dir := None; dotenv_error := None; database_url := None;
                data_file := None |} "queries/q.sql"); reflexivity.
  - apply (proj2 (proj2 (proj2 (proj2
             (read_file_src_rules Demo.collab (Demo.env None None) "queries/q.sql"))))
             "/app"); reflexivity.
Defined.

(** ** C8: the live path and the offline path *)

(** C8 (as amended).  With [CARGO_MANIFEST_DIR] set and the [.env] file (if
    any) loaded: a [DATABASE_URL] selects the live path; without one, when
    the [offline] feature is compiled in, the snapshot [sqlx-data.json] is
    read if it exists, and otherwise the expansion fails telling to set
    [DATABASE_URL] or run [cargo sqlx prepare]; without the [offline]
    feature a missing [DATABASE_URL] is an error asking for it, and no
    snapshot is read. *)
Theorem expand_input_paths (c : Collab) (ft : Features) (env : Env)
  (input : QueryMacroInput) (st : Store) (m : string) :
  cargo_manifest_dir env = Some m -> dotenv_error env = None ->
  (forall u, database_url env = Some u ->
     expand_input c ft env input st = expand_from_db c ft input u st) /\
  (forall snap, database_url env = None -> f_offline ft = true -> data_file env = Some snap ->
     expand_input c ft env input st = expand_from_file c ft input snap st) /\
  (database_url env = None -> f_offline ft = true -> data_file env = None ->
     expand_input c ft env input st = (Err no_url_offline_msg, st) /\
     mentions "`DATABASE_URL` must be set" no_url_offline_msg = true /\
     mentions "cargo sqlx prepare" no_url_offline_msg = true) /\
  (database_url env = None -> f_offline ft = false ->
     expand_input c ft env input st = (Err no_url_msg, st)).
Proof.
  intros Hm Hd. unfold expand_input. rewrite Hm, Hd.
  split; [intros u ->; reflexivity|].
  split; [intros snap -> -> ->; reflexivity|].
  split; [intros -> -> ->; split; [reflexivity | split; reflexivity]|].
  intros -> ->. reflexivity.
Qed.

Lemma expand_input_paths_witness :
  expand_input Demo.collab Demo.all_features (Demo.env None (Some (Demo.snap "SQLite")))
    (Demo.input Generated []) []
  = expand_from_file Demo.collab Demo.all_features (Demo.input Generated [])
      (Demo.snap "SQLite") [].
Proof.
  apply (expand_input_paths Demo.collab Demo.all_features
           (Demo.env None (Some (Demo.snap "SQLite"))) (Demo.input Generated []) [] "/app");
    reflexivity.
Defined.

(** C8 fails as stated without the [offline] feature: with no
    [DATABASE_URL] and a snapshot present, the snapshot is not read and the
    error does not mention regenerating it. *)
Lemma expand_input_no_offline_feature :
  f_offline Demo.online_only = false /\
  data_file (Demo.env None (Some (Demo.snap "PostgreSQL"))) <> None /\
  expand_input Demo.collab Demo.online_only (Demo.env None (Some (Demo.snap "PostgreSQL")))
    (Demo.input Generated []) [] = (Err no_url_msg, []) /\
  mentions "cargo sqlx prepare" no_url_msg = false.
Proof. split; [reflexivity | split; [discriminate | split; reflexivity]]. Qed.

(** ** C9 and C10: parsing the macro input *)

Lemma parse_item_keeps_src (c : Collab) (st st1 : ParseState) (k : string) (v : Value) :
  k <> "source" -> k <> "source_file" ->
  parse_item st (k, v) = Ok st1 -> ps_query_src st1 = ps_query_src st.
Proof.
  intros H1 H2. apply String.eqb_neq in H1, H2. unfold parse_item.
  destruct (negb (accept_as_ident k)); [discriminate|]. rewrite H1, H2.
  destruct (k =? "args"), (k =? "record"), (k =? "checked");
    destruct v as [[|s0 [|s1 ss]]|b|es|t]; simpl; intros H; inversion H; reflexivity.
Qed.

Lemma parse_item_checked (st st1 : ParseState) (k : string) (v : Value) :
  parse_item st (k, v) = Ok st1 ->
  ps_checked st1 =
    if k =? "checked" then match v with VLitBool b => b | _ => ps_checked st end
    else ps_checked st.
Proof.
  unfold parse_item. destruct (negb (accept_as_ident k)); [discriminate|].
  destruct (String.eqb_spec k "checked") as [->|Hk].
  - simpl. destruct v; intros H; inversion H; reflexivity.
  - destruct (k =? "source"), (k =? "source_file"), (k =? "args"), (k =? "record");
      destruct v as [[|s0 [|s1 ss]]|b|es|t]; simpl; intros H; inversion H; reflexivity.
Qed.

Lemma parse_items_src (c : Collab) (items : list Item) (st st' : ParseState) :
  parse_items st items = Ok st' ->
  ps_query_src st' = ps_query_src st \/
  exists it, In it items /\ (fst it = "source" \/ fst it = "source_file").
Proof.
  revert st. induction items as [|[k v] rest IH]; cbn [parse_items]; intros st H.
  - inversion H. left. reflexivity.
  - destruct (parse_item st (k, v)) as [st1| |] eqn:E; simpl in H; try discriminate.
    destruct (String.eqb_spec k "source") as [Hs|Hs].
    { right. exists (k, v). split; [left; reflexivity | left; exact Hs]. }
    destruct (String.eqb_spec k "source_file") as [Hf|Hf].
    { right. exists (k, v). split; [left; reflexivity | right; exact Hf]. }
    destruct (IH st1 H) as [Heq|[it [Hin Hit]]].
    + left. rewrite Heq. apply (parse_item_keeps_src c st st1 k v Hs Hf E).
    + right. exists it. split; [right; exact Hin | exact Hit].
Qed.

Lemma parse_items_checked (items : list Item) (st st' : ParseState) :
  parse_items st items = Ok st' ->
  ps_checked st' = match last_checked items with Some b => b | None => ps_checked st end.
Proof.
  revert st. induction items as [|[k v] rest IH]; cbn [parse_items]; intros st H.
  - inversion H. reflexivity.
  - destruct (parse_item st (k, v)) as [st1| |] eqn:E; simpl in H; try discriminate.
    rewrite (IH st1 H). cbn [last_checked]. destruct (last_checked rest) as [b|]; [reflexivity|].
    rewrite (parse_item_checked st st1 k v E).
    destruct (k =? "checked"); [destruct v|]; reflexivity.
Qed.

(** C9 (as amended).  Parsing fails whenever neither a [source] nor a
    [source_file] key is supplied; the error is exactly "unexpected end of
    input, expected `source` or `source_file` key" when the supplied keys
    and values are otherwise well-formed (a key that is not an identifier,
    an unknown key or a malformed value is reported first, with its own
    error).  A successful parse had such a key, and its [src] is
    that source resolved: the literals joined, or the file read. *)
Theorem parse_requires_source (c : Collab) (env : Env) (items : list Item) :
  (Forall (fun it => fst it <> "source" /\ fst it <> "source_file") items ->
     is_ok (parse c env items) = false /\
     (is_ok (parse_items init_state items) = true -> parse c env items = Err missing_src_msg)) /\
  (forall qi, parse c env items = Ok qi ->
     (exists it, In it items /\ (fst it = "source" \/ fst it = "source_file")) /\
     exists st q, parse_items init_state items = Ok st /\ ps_query_src st = Some q /\
                  resolve c env q = Ok (src qi)).
Proof.
  split.
  - intros Hall.
    assert (Hnone : forall st, parse_items init_state items = Ok st -> ps_query_src st = None).
    { intros st Hp. destruct (parse_items_src c items init_state st Hp) as [H|[it [Hin Hit]]].
      - exact H.
      - rewrite Forall_forall in Hall. destruct (Hall it Hin). tauto. }
    unfold parse.
    destruct (parse_items init_state items) as [st| |] eqn:Ep; simpl;
      [rewrite (Hnone st eq_refl); split; reflexivity | split; [reflexivity | discriminate]..].
  - intros qi Hp. unfold parse in Hp.
    destruct (parse_items init_state items) as [st| |] eqn:Ep; simpl in Hp; try discriminate.
    destruct (ps_query_src st) as [q|] eqn:Eq; [|discriminate].
    destruct (resolve c env q) as [s| |] eqn:Er; simpl in Hp; try discriminate.
    inversion Hp; subst. split.
    + destruct (parse_items_src c items init_state st Ep) as [H|H]; [|exact H].
      rewrite Eq in H. discriminate.
    + exists st, q. simpl. split; [reflexivity | split; [exact Eq | exact Er]].
Qed.

Lemma parse_requires_source_witness :
  parse Demo.collab (Demo.env None None) [("checked", VLitBool false)] = Err missing_src_msg /\
  (exists it, In it [("source", VLitStrs ["SELECT 1"])] /\
     (fst it = "source" \/ fst it = "source_file")).
Proof.
  split.
  - apply (parse_requires_source Demo.collab (Demo.env None None) [("checked", VLitBool false)]).
    + repeat constructor; discriminate.
    + reflexivity.
  - apply (proj2 (parse_requires_source Demo.collab (Demo.env None None)
                    [("source", VLitStrs ["SELECT 1"])])
             {| src := "SELECT 1"; record_type := Generated; arg_exprs := []; checked := true |}).
    reflexivity.
Defined.

(** C9 fails as stated: with neither key supplied but an unknown key, the
    error is the unknown-key one. *)
Lemma parse_unknown_key_first :
  parse Demo.collab (Demo.env None None) [("foo", VLitBool true)]
    = Err "unexpected input key: foo".
Proof. reflexivity. Qed.

(** C10.  The [checked] flag of a parsed input is the value of the last
    [checked = b] item, and [true] when there is no [checked] key. *)
Theorem parse_checked (c : Collab) (env : Env) (items : list Item) (qi : QueryMacroInput) :
  parse c env items = Ok qi ->
  checked qi = match last_checked items with Some b => b | None => true end /\
  (Forall (fun it => fst it <> "checked") items -> checked qi = true).
Proof.
  intros Hp. unfold parse in Hp.
  destruct (parse_items init_state items) as [st| |] eqn:Ep; simpl in Hp; try discriminate.
  destruct (ps_query_src st) as [q|]; [|discriminate].
  destruct (resolve c env q) as [s| |]; simpl in Hp; try discriminate.
  inversion Hp; subst. simpl.
  rewrite (parse_items_checked items init_state st Ep). split; [reflexivity|].
  intros Hall. clear Ep.
  assert (Hn : last_checked items = None).
  { induction items as [|[k v] rest IH]; [reflexivity|].
    inversion Hall; subst. simpl. rewrite (IH H2).
    simpl in H1. apply String.eqb_neq in H1. rewrite H1. reflexivity. }
  rewrite Hn. reflexivity.
Qed.

Lemma parse_checked_witness :
  checked {| src := "SELECT 1"; record_type := Generated; arg_exprs := []; checked := false |}
    = false /\
  checked {| src := "SELECT 1"; record_type := Generated; arg_exprs := []; checked := true |}
    = true.
Proof.
  split.
  - apply (proj1 (parse_checked Demo.collab (Demo.env None None)
             [("source", VLitStrs ["SELECT 1"]); ("checked", VLitBool true);
              ("checked", VLitBool false)]
             {| src := "SELECT 1"; record_type := Generated; arg_exprs := []; checked := false |}
             eq_refl)).
  - apply (proj2 (parse_checked Demo.collab (Demo.env None None)
             [("source", VLitStrs ["SELECT 1"])]
             {| src := "SELECT 1"; record_type := Generated; arg_exprs := []; checked := true |}
             eq_refl)).
    repeat constructor. discriminate.
Defined.

(** * Further properties of the code *)

(** ** Parsing the macro input *)

Lemma parse_item_inv (st st1 : ParseState) (k : string) (v : Value) :
  parse_item st (k, v) = Ok st1 ->
  (k = "source" /\ exists s ss, v = VLitStrs (s :: ss) /\
     st1 = set_src st (SrcString (String.concat EmptyString (s :: ss)))) \/
  (k = "source_file" /\ exists f, v = VLitStrs [f] /\ st1 = set_src st (SrcFile f)) \/
  (k = "args" /\ exists es, v = VArray es /\ st1 = set_args st es) \/
  (k = "record" /\ exists t, v = VType t /\ st1 = set_record st (Given t)) \/
  (k = "checked" /\ exists b, v = VLitBool b /\ st1 = set_checked st b).
Proof.
  unfold parse_item. destruct (negb (accept_as_ident k)); [discriminate|].
  destruct (String.eqb_spec k "source") as [->|H1].
  { destruct v as [[|s ss]|b|es|t]; intros H; inversion H; subst.
    left. split; [reflexivity|]. exists s, ss. split; reflexivity. }
  destruct (String.eqb_spec k "source_file") as [->|H2].
  { destruct v as [[|s [|s1 ss]]|b|es|t]; intros H; inversion H; subst.
    right; left. split; [reflexivity|]. exists s. split; reflexivity. }
  destruct (String.eqb_spec k "args") as [->|H3].
  { destruct v; intros H; inversion H; subst.
    right; right; left. split; [reflexivity|]. eexists. split; reflexivity. }
  destruct (String.eqb_spec k "record") as [->|H4].
  { destruct v; intros H; inversion H; subst.
    right; right; right; left. split; [reflexivity|]. eexists. split; reflexivity. }
  destruct (String.eqb_spec k "checked") as [->|H5].
  { destruct v; intros H; inversion H; subst.
    right; right; right; right. split; [reflexivity|]. eexists. split; reflexivity. }
  discriminate.
Qed.

(** The fields of the parse state after a sequence of items: each is set by
    the last item with its key. *)
Lemma parse_items_last (items : list Item) (st st' : ParseState) :
  parse_items st items = Ok st' ->
  ps_args st' = match last_keyed (fun k => k =? "args") items with
                | Some (_, VArray es) => Some es
                | Some _ => None
                | None => ps_args st
                end /\
  ps_record_type st' = match last_keyed (fun k => k =? "record") items with
                       | Some (_, VType t) => Given t
                       | Some _ => Generated
                       | None => ps_record_type st
                       end /\
  ps_query_src st' = match last_keyed is_src_key items with
                     | Some (k, VLitStrs ss) =>
                         Some (if k =? "source" then SrcString (String.concat EmptyString ss)
                               else SrcFile (hd EmptyString ss))
                     | Some _ => None
                     | None => ps_query_src st
                     end.
Proof.
  revert st. induction items as [|[k v] rest IH]; cbn [parse_items]; intros st H.
  - inversion H. subst. repeat split.
  - destruct (parse_item st (k, v)) as [st1| |] eqn:E; cbn [res_bind] in H; try discriminate.
    destruct (IH st1 H) as [Ha [Hr Hs]].
    cbn [last_keyed].
    apply parse_item_inv in E.
    destruct E as [[-> [s0 [ss [-> ->]]]]|[[-> [f [-> ->]]]|[[-> [es [-> ->]]]|
                   [[-> [t [-> ->]]]|[-> [b [-> ->]]]]]]];
      (split; [rewrite Ha | split; [rewrite Hr | rewrite Hs]]);
      repeat match goal with
             | |- context [last_keyed ?p rest] => destruct (last_keyed p rest); [reflexivity|]
             end; reflexivity.
Qed.

(** When the items before it are well-formed, the parser stops at the next
    key: a Rust keyword or [_] is refused by [syn] with "expected
    identifier", and any other key outside the five known ones is reported
    as unexpected, naming it; what follows is never looked at. *)
Theorem parse_unknown_key (c : Collab) (env : Env) (pre post : list Item)
  (k : string) (v : Value) (st : ParseState) :
  parse_items init_state pre = Ok st ->
  (accept_as_ident k = false ->
     parse c env (pre ++ (k, v) :: post) = Err "expected identifier") /\
  (accept_as_ident k = true ->
   ~ In k ["source"; "source_file"; "args"; "record"; "checked"] ->
   parse c env (pre ++ (k, v) :: post) = Err ("unexpected input key: " ++ k) /\
   mentions k ("unexpected input key: " ++ k) = true).
Proof.
  intros Hpre.
  assert (Happ : forall st0, parse_items st0 (pre ++ (k, v) :: post) =
                   res_bind (parse_items st0 pre)
                            (fun st1 => parse_items st1 ((k, v) :: post))).
  { clear. induction pre as [|it pre IH]; intros st0; simpl; [reflexivity|].
    destruct (parse_item st0 it); simpl; [apply IH | reflexivity | reflexivity]. }
  split.
  - intros Hid. unfold parse. rewrite Happ, Hpre. cbn [res_bind parse_items].
    unfold parse_item. rewrite Hid. reflexivity.
  - intros Hid Hk. split; [|apply mentions_suffix].
    assert (Hitem : parse_item st (k, v) = Err ("unexpected input key: " ++ k)).
    { unfold parse_item. rewrite Hid. cbn [negb].
      destruct (String.eqb_spec k "source"); [subst; simpl in Hk; tauto|].
      destruct (String.eqb_spec k "source_file"); [subst; simpl in Hk; tauto|].
      destruct (String.eqb_spec k "args"); [subst; simpl in Hk; tauto|].
      destruct (String.eqb_spec k "record"); [subst; simpl in Hk; tauto|].
      destruct (String.eqb_spec k "checked"); [subst; simpl in Hk; tauto|].
      reflexivity. }
    unfold parse. rewrite Happ, Hpre. cbn [res_bind parse_items]. rewrite Hitem. reflexivity.
Qed.

Lemma parse_unknown_key_witness :
  parse Demo.collab (Demo.env None None)
    ([("source", VLitStrs ["SELECT 1"])] ++ ("type", VLitBool true) :: [("query", VLitBool true)])
    = Err "expected identifier" /\
  parse Demo.collab (Demo.env None None)
    ([("source", VLitStrs ["SELECT 1"])] ++ ("query", VLitBool true) :: [("type", VLitBool true)])
    = Err ("unexpected input key: " ++ "query").
Proof.
  split.
  - apply (proj1 (parse_unknown_key Demo.collab (Demo.env None None)
                    [("source", VLitStrs ["SELECT 1"])] [("query", VLitBool true)]
                    "type" (VLitBool true)
                    (set_src init_state (SrcString "SELECT 1")) eq_refl)).
    reflexivity.
  - apply (proj2 (parse_unknown_key Demo.collab (Demo.env None None)
                    [("source", VLitStrs ["SELECT 1"])] [("type", VLitBool true)]
                    "query" (VLitBool true)
                    (set_src init_state (SrcString "SELECT 1")) eq_refl)).
    + reflexivity.
    + simpl. intuition discriminate.
Defined.

Lemma last_keyed_some (p : string -> bool) (items : list Item) (k : string) (v : Value) :
  last_keyed p items = Some (k, v) -> p k = true /\ In (k, v) items.
Proof.
  induction items as [|[k0 v0] rest IH]; simpl; [discriminate|].
  destruct (last_keyed p rest) as [it|] eqn:E.
  - intros H. inversion H; subst. destruct (IH eq_refl). split; [assumption | right; assumption].
  - destruct (p k0) eqn:Hp; [|discriminate]. intros H. inversion H; subst.
    split; [exact Hp | left; reflexivity].
Qed.

Lemma parse_items_each (items : list Item) (st st' : ParseState) :
  parse_items st items = Ok st' ->
  forall it, In it items -> exists st0 st1, parse_item st0 it = Ok st1.
Proof.
  revert st. induction items as [|it0 rest IH]; cbn [parse_items]; intros st H it Hin;
    [destruct Hin|].
  destruct (parse_item st it0) as [st1| |] eqn:E; cbn [res_bind] in H; try discriminate.
  destruct Hin as [<-|Hin]; [exists st, st1; exact E | exact (IH st1 H it Hin)].
Qed.

Lemma parse_ok_state (c : Collab) (env : Env) (items : list Item) (qi : QueryMacroInput) :
  parse c env items = Ok qi ->
  exists st q, parse_items init_state items = Ok st /\ ps_query_src st = Some q /\
    resolve c env q = Ok (src qi) /\
    record_type qi = ps_record_type st /\
    arg_exprs qi = match ps_args st with Some es => es | None => [] end.
Proof.
  unfold parse. intros Hp.
  destruct (parse_items init_state items) as [st| |] eqn:Ep; cbn [res_bind] in Hp; try discriminate.
  destruct (ps_query_src st) as [q|] eqn:Eq; [|discriminate].
  destruct (resolve c env q) as [s| |] eqn:Er; cbn [res_bind] in Hp; try discriminate.
  inversion Hp; subst. exists st, q. simpl. repeat split; assumption.
Qed.

(** The source of a parsed input is set by the last [source] or
    [source_file] key: inline string literals are concatenated in order, a
    file is read through [read_file_src]. *)
Theorem parse_src_last (c : Collab) (env : Env) (items : list Item) (qi : QueryMacroInput) :
  parse c env items = Ok qi ->
  (exists ss, last_keyed is_src_key items = Some ("source", VLitStrs ss) /\
              src qi = String.concat EmptyString ss) \/
  (exists f, last_keyed is_src_key items = Some ("source_file", VLitStrs [f]) /\
             read_file_src c env f = Ok (src qi)).
Proof.
  intros Hp. destruct (parse_ok_state c env items qi Hp) as [st [q [Ep [Eq [Er _]]]]].
  destruct (parse_items_last items init_state st Ep) as [_ [_ Hs]].
  destruct (last_keyed is_src_key items) as [[k v]|] eqn:El; [|rewrite Hs in Eq; discriminate].
  destruct (last_keyed_some is_src_key items k v El) as [Hk Hin].
  destruct (parse_items_each items init_state st Ep (k, v) Hin) as [st0 [st1 Ei]].
  apply parse_item_inv in Ei.
  destruct Ei as [[-> [s0 [ss [-> _]]]]|[[-> [f [-> _]]]|[[-> _]|[[-> _]|[-> _]]]]];
    try discriminate Hk.
  - left. exists (s0 :: ss). split; [reflexivity|].
    rewrite Hs in Eq. simpl in Eq. inversion Eq; subst. simpl in Er. inversion Er. reflexivity.
  - right. exists f. split; [reflexivity|].
    rewrite Hs in Eq. simpl in Eq. inversion Eq; subst. exact Er.
Qed.

Lemma parse_src_last_witness :
  (exists ss, last_keyed is_src_key
                [("source_file", VLitStrs ["q.sql"]); ("source", VLitStrs ["SELECT "; "1"])]
              = Some ("source", VLitStrs ss) /\ "SELECT 1" = String.concat EmptyString ss) \/
  (exists f, last_keyed is_src_key
               [("source_file", VLitStrs ["q.sql"]); ("source", VLitStrs ["SELECT "; "1"])]
             = Some ("source_file", VLitStrs [f]) /\
             read_file_src Demo.collab (Demo.env None None) f = Ok "SELECT 1").
Proof.
  apply (parse_src_last Demo.collab (Demo.env None None)
           [("source_file", VLitStrs ["q.sql"]); ("source", VLitStrs ["SELECT "; "1"])]
           {| src := "SELECT 1"; record_type := Generated; arg_exprs := []; checked := true |}).
  reflexivity.
Defined.

(** The arguments of a parsed input are those of the last [args] array, and
    none when there is no [args] key. *)
Theorem parse_args_last (c : Collab) (env : Env) (items : list Item) (qi : QueryMacroInput) :
  parse c env items = Ok qi ->
  arg_exprs qi = match last_keyed (fun k => k =? "args") items with
                 | Some (_, VArray es) => es
                 | _ => []
                 end.
Proof.
  intros Hp. destruct (parse_ok_state c env items qi Hp) as [st [q [Ep [_ [_ [_ Ha]]]]]].
  destruct (parse_items_last items init_state st Ep) as [Hargs _].
  rewrite Ha, Hargs.
  destruct (last_keyed (fun k => k =? "args") items) as [[k [ss|b|es|t]]|]; reflexivity.
Qed.

Lemma parse_args_last_witness :
  arg_exprs {| src := "SELECT 1"; record_type := Generated; arg_exprs := ["b"]; checked := true |}
  = ["b"].
Proof.
  apply (parse_args_last Demo.collab (Demo.env None None)
           [("args", VArray ["a"]); ("source", VLitStrs ["SELECT 1"]); ("args", VArray ["b"])]).
  reflexivity.
Defined.

(** The record type of a parsed input is [Given t] for the last [record = t]
    key and [Generated] without one; the parser never yields the scalar
    record type. *)
Theorem parse_record_type (c : Collab) (env : Env) (items : list Item) (qi : QueryMacroInput) :
  parse c env items = Ok qi ->
  record_type qi = match last_keyed (fun k => k =? "record") items with
                   | Some (_, VType t) => Given t
                   | _ => Generated
                   end /\
  record_type qi <> Scalar.
Proof.
  intros Hp. destruct (parse_ok_state c env items qi Hp) as [st [q [Ep [_ [_ [Hr _]]]]]].
  destruct (parse_items_last items init_state st Ep) as [_ [Hrec _]].
  rewrite Hr, Hrec.
  destruct (last_keyed (fun k => k =? "record") items) as [[k [ss|b|es|t]]|];
    split; (reflexivity || discriminate).
Qed.

Lemma parse_record_type_witness :
  record_type {| src := "SELECT 1"; record_type := Given "User"; arg_exprs := []; checked := true |}
  = Given "User".
Proof.
  apply (parse_record_type Demo.collab (Demo.env None None)
           [("record", VType "Row"); ("source", VLitStrs ["SELECT 1"]); ("record", VType "User")]).
  reflexivity.
Defined.

(** ** File paths *)

Lemma mentions_slash_cons (a : ascii) (s : string) :
  mentions "/" (String a s) = false -> a <> "/"%char /\ mentions "/" s = false.
Proof.
  intros H. change (prefix "/" (String a s) || mentions "/" s = false) in H.
  destruct (prefix "/" (String a s)) eqn:Hp; [simpl in H; discriminate|].
  split; [|exact H]. intros E. subst a. destruct s; simpl in Hp; discriminate Hp.
Qed.

Lemma segments_no_slash (s : string) :
  mentions "/" s = false -> UnixPath.segments s = [s].
Proof.
  induction s as [|a s IH]; [reflexivity|].
  intros H. apply mentions_slash_cons in H. destruct H as [Ha Hs].
  simpl. rewrite (IH Hs).
  assert (E : Ascii.eqb a UnixPath.slash = false) by (apply Ascii.eqb_neq; exact Ha).
  rewrite E. reflexivity.
Qed.

Lemma segments_app_slash (d f : string) :
  mentions "/" d = false -> UnixPath.segments (d ++ "/" ++ f) = d :: UnixPath.segments f.
Proof.
  induction d as [|a d IH]; [reflexivity|].
  intros H. apply mentions_slash_cons in H. destruct H as [Ha Hd].
  simpl. simpl in IH. rewrite (IH Hd).
  assert (E : Ascii.eqb a UnixPath.slash = false) by (apply Ascii.eqb_neq; exact Ha).
  rewrite E. reflexivity.
Qed.

Lemma is_absolute_no_lead_slash (d : string) (rest : string) :
  mentions "/" d = false -> d <> EmptyString -> UnixPath.is_absolute (d ++ rest) = false.
Proof.
  destruct d as [|a d]; [contradiction|]. intros H _.
  apply mentions_slash_cons in H. destruct H as [Ha _].
  simpl. apply Ascii.eqb_neq. exact Ha.
Qed.

(** A bare file name (no [/] in it) is always rejected as relative to the
    current file, whatever the environment: [query_file!] needs a directory
    part. *)
Theorem read_file_src_bare_name (c : Collab) (env : Env) (source : string) :
  mentions "/" source = false ->
  read_file_src c env source = Err relative_msg.
Proof.
  intros H. unfold read_file_src.
  assert (Ha : UnixPath.is_absolute source = false).
  { destruct source as [|a s]; [reflexivity|].
    apply mentions_slash_cons in H. destruct H as [Ha _].
    simpl. apply Ascii.eqb_neq. exact Ha. }
  assert (Hp : UnixPath.has_nonempty_parent source = false).
  { unfold UnixPath.has_nonempty_parent, UnixPath.parent, UnixPath.components.
    rewrite (segments_no_slash source H).
    destruct (source =? "."); [reflexivity|]. destruct (source =? EmptyString); reflexivity. }
  rewrite Ha, Hp. reflexivity.
Qed.

Lemma read_file_src_bare_name_witness :
  read_file_src Demo.collab (Demo.env None None) "query.sql" = Err relative_msg.
Proof. apply read_file_src_bare_name. reflexivity. Defined.

(** A path [dir/file] with a non-empty directory name and a file name other
    than empty or [.] passes both path checks: it is read from the manifest
    directory, or fails because [CARGO_MANIFEST_DIR] is unset. *)
Theorem read_file_src_dir_file (c : Collab) (env : Env) (d f : string) :
  mentions "/" d = false -> d <> EmptyString ->
  mentions "/" f = false -> f <> EmptyString -> f <> "." ->
  read_file_src c env (d ++ "/" ++ f) =
    match cargo_manifest_dir env with
    | None => Err manifest_msg
    | Some base =>
        match read_to_string c (UnixPath.join base (d ++ "/" ++ f)) with
        | Ok s => Ok s
        | Err e => Err ("failed to read query file at " ++ UnixPath.join base (d ++ "/" ++ f)
                        ++ ": " ++ e)
        | Panic m => Panic m
        end
    end.
Proof.
  intros Hd Hdne Hf Hfne Hfdot. unfold read_file_src.
  rewrite (is_absolute_no_lead_slash d ("/" ++ f) Hd Hdne).
  assert (Hp : UnixPath.has_nonempty_parent (d ++ "/" ++ f) = true).
  { unfold UnixPath.has_nonempty_parent, UnixPath.parent, UnixPath.components.
    rewrite (segments_app_slash d f Hd), (segments_no_slash f Hf).
    apply String.eqb_neq in Hfne, Hfdot. apply String.eqb_neq in Hdne.
    cbn [filter]. rewrite Hfne, Hfdot. simpl negb. cbn iota.
    destruct (d =? "."); [reflexivity|]. rewrite Hdne. reflexivity. }
  rewrite Hp. reflexivity.
Qed.

Lemma read_file_src_dir_file_witness :
  read_file_src Demo.collab (Demo.env None None) ("queries" ++ "/" ++ "q.sql")
  = Ok "SELECT 1 -- /app/queries/q.sql".
Proof.
  rewrite (read_file_src_dir_file Demo.collab (Demo.env None None) "queries" "q.sql");
    [reflexivity | reflexivity | discriminate | reflexivity | discriminate | discriminate].
Defined.

(** When reading the query file fails, the error names the full path that
    was tried and the underlying I/O error. *)
Theorem read_file_src_read_error (c : Collab) (env : Env) (source base e : string) :
  UnixPath.is_absolute source = false -> UnixPath.has_nonempty_parent source = true ->
  cargo_manifest_dir env = Some base ->
  read_to_string c (UnixPath.join base source) = Err e ->
  read_file_src c env source =
    Err ("failed to read query file at " ++ UnixPath.join base source ++ ": " ++ e) /\
  mentions (UnixPath.join base source)
    ("failed to read query file at " ++ UnixPath.join base source ++ ": " ++ e) = true /\
  mentions e ("failed to read query file at " ++ UnixPath.join base source ++ ": " ++ e) = true.
Proof.
  intros Ha Hp Hb Hr. split.
  { unfold read_file_src. rewrite Ha, Hp, Hb. simpl. rewrite Hr. reflexivity. }
  split.
  - apply mentions_app.
  - rewrite !str_app_assoc. apply mentions_suffix.
Qed.

Lemma read_file_src_read_error_witness :
  read_file_src
    {| parse_url := parse_url Demo.collab; connect_describe := connect_describe Demo.collab;
       sha := sha Demo.collab; quote_args := quote_args Demo.collab;
       map_type := map_type Demo.collab; is_wildcard := is_wildcard Demo.collab;
       scalar_type := scalar_type Demo.collab;
       read_to_string := fun _ => Err "No such file or directory";
       fs_ok := true |}
    (Demo.env None None) "queries/q.sql"
  = Err ("failed to read query file at " ++ "/app/queries/q.sql" ++ ": "
         ++ "No such file or directory").
Proof.
  apply (read_file_src_read_error _ (Demo.env None None) "queries/q.sql" "/app"
           "No such file or directory"); reflexivity.
Defined.

(** ** Assembling the output *)

Lemma has_wildcard_false (cols : list RustColumn) :
  has_wildcard cols = false -> Forall (fun rc => type_ rc <> None) cols.
Proof.
  induction cols as [|rc cols IH]; intros H; constructor.
  - unfold has_wildcard in H. simpl in H. destruct (type_ rc); [discriminate | discriminate H].
  - apply IH. unfold has_wildcard in *. simpl in H.
    destruct (type_ rc); [exact H | discriminate H].
Qed.

(** With at least one result column and a record type other than the
    scalar one, a successful output binds the columns mapped by
    [columns_to_rust]: a generated [Record]
    struct, in which every field has a concrete type (no wildcard
    override), or the user's type. *)
Theorem expand_output_with_columns (c : Collab) (b : Backend) (input : QueryMacroInput)
  (data : QueryData) (o : Output) :
  columns (describe data) <> [] -> record_type input <> Scalar ->
  expand_output c b input data = Ok o ->
  exists cols,
    columns_to_rust c b (describe data) = Ok cols /\
    match record_type input with
    | Generated =>
        Forall (fun rc => type_ rc <> None) cols /\
        o = RecordAndQueryAs cols {| qa_db := b; qa_out_ty := "Record";
                                     qa_src := src input; qa_cols := cols |}
    | Given t =>
        o = QueryAsOnly {| qa_db := b; qa_out_ty := t; qa_src := src input; qa_cols := cols |}
    | Scalar => False
    end.
Proof.
  intros Hne Hns. unfold expand_output.
  destruct (columns (describe data)) as [|c0 l] eqn:Ec; [contradiction Hne; reflexivity|].
  destruct (record_type input) as [t| |]; [| |contradiction Hns; reflexivity];
    destruct (columns_to_rust c b (describe data)) as [cols| |] eqn:Ecr;
    cbn [res_bind]; try discriminate.
  - intros H. inversion H; subst. exists cols. split; reflexivity.
  - destruct (has_wildcard cols) eqn:Hw; [discriminate|].
    intros H. inversion H; subst. exists cols.
    split; [reflexivity|]. split; [apply has_wildcard_false; exact Hw | reflexivity].
Qed.

Lemma expand_output_with_columns_witness :
  exists cols,
    columns_to_rust Demo.collab Postgres (Demo.desc 0 [Demo.col_id; Demo.col_text]) = Ok cols /\
    Forall (fun rc => type_ rc <> None) cols /\
    expand_output Demo.collab Postgres (Demo.input Generated []) (Demo.qd 0 [Demo.col_id; Demo.col_text])
      = Ok (RecordAndQueryAs cols {| qa_db := Postgres; qa_out_ty := "Record";
                                      qa_src := "SELECT 1"; qa_cols := cols |}).
Proof.
  destruct (expand_output_with_columns Demo.collab Postgres (Demo.input Generated [])
              (Demo.qd 0 [Demo.col_id; Demo.col_text])
              (RecordAndQueryAs [{| ident := "id"; type_ := Some "i32" |};
                                 {| ident := "title"; type_ := Some "Option<String>" |}]
                 {| qa_db := Postgres; qa_out_ty := "Record"; qa_src := "SELECT 1";
                    qa_cols := [{| ident := "id"; type_ := Some "i32" |};
                                {| ident := "title"; type_ := Some "Option<String>" |}] |}))
    as [cols [Hc [Hf Ho]]]; [discriminate | discriminate | reflexivity |].
  exists cols. split; [exact Hc|]. split; [exact Hf|].
  cbn [src Demo.input] in Ho. rewrite <- Ho. reflexivity.
Defined.

(** A successful scalar output comes from a query with exactly one result
    column, whose type is the one [scalar_type] gives for that column. *)
Theorem expand_output_scalar_ok (c : Collab) (b : Backend) (input : QueryMacroInput)
  (data : QueryData) (o : Output) :
  record_type input = Scalar ->
  expand_output c b input data = Ok o ->
  exists col, columns (describe data) = [col] /\
              o = ScalarQuery b (scalar_type c col) (src input).
Proof.
  intros Hs. unfold expand_output. rewrite Hs.
  destruct (columns (describe data)) as [|c0 [|c1 l]]; cbn -[scalar_count_msg];
    try discriminate.
  intros H. inversion H; subst. exists c0. split; reflexivity.
Qed.

Lemma expand_output_scalar_ok_witness :
  exists col, columns (describe (Demo.qd 0 [Demo.col_text])) = [col] /\
    ScalarQuery Postgres "i32" "SELECT 1" = ScalarQuery Postgres (scalar_type Demo.collab col) "SELECT 1".
Proof.
  apply (expand_output_scalar_ok Demo.collab Postgres (Demo.input Scalar []) (Demo.qd 0 [Demo.col_text]));
    reflexivity.
Defined.

(** ** What [expand_with_data] returns and writes *)

Lemma expand_output_src_db (c : Collab) (b : Backend) (input : QueryMacroInput)
  (data : QueryData) (o : Output) :
  expand_output c b input data = Ok o -> output_sql o = src input /\ output_db o = b.
Proof.
  unfold expand_output.
  destruct (columns (describe data)) as [|c0 l];
    destruct (record_type input) as [t| |]; cbn -[scalar_count_msg no_columns_msg];
    try discriminate.
  - intros H. inversion H. split; reflexivity.
  - destruct (columns_to_rust c b (describe data)); cbn [res_bind]; try discriminate.
    intros H. inversion H. split; reflexivity.
  - destruct (columns_to_rust c b (describe data)) as [cols| |]; cbn [res_bind]; try discriminate.
    destruct (has_wildcard cols); [discriminate|]. intros H. inversion H. split; reflexivity.
  - destruct (negb _); [discriminate|]. intros H. inversion H. split; reflexivity.
Qed.

Lemma expand_with_data_names (c : Collab) (ft : Features) (b : Backend)
  (input : QueryMacroInput) (data : QueryData) (st : Store) (e : Expansion) :
  fst (expand_with_data c ft b input data st) = Ok e -> exp_arg_names e = arg_names input.
Proof.
  unfold expand_with_data.
  destruct (negb _); [discriminate|]. rewrite !bind_lift.
  destruct (quote_args c input (describe data)); try discriminate.
  destruct (expand_output c b input data); try discriminate.
  destruct (f_offline ft); unfold bind, ret, save_in; [destruct (fs_ok c)|];
    simpl; try discriminate; intros H; inversion H; reflexivity.
Qed.

(** A successful expansion is generated for the backend it was called at
    and for the query text of the macro input, and binds the argument
    expressions of the input, in order. *)
Theorem expand_with_data_ok_output (c : Collab) (ft : Features) (b : Backend)
  (input : QueryMacroInput) (data : QueryData) (st : Store) (e : Expansion) :
  fst (expand_with_data c ft b input data st) = Ok e ->
  exp_arg_names e = arg_names input /\
  output_sql (exp_output e) = src input /\
  output_db (exp_output e) = b.
Proof.
  intros H. split; [exact (expand_with_data_names c ft b input data st e H)|].
  apply expand_with_data_ok_inv in H. destruct H as [_ [_ Ho]].
  exact (expand_output_src_db c b input data _ Ho).
Qed.

Lemma expand_with_data_ok_output_witness :
  exp_arg_names {| exp_arg_names := ["x"]; exp_args_tokens := "query_args";
                   exp_output := NoRows MySql "SELECT 1" |} = ["x"] /\
  output_sql (NoRows MySql "SELECT 1") = "SELECT 1" /\
  output_db (NoRows MySql "SELECT 1") = MySql.
Proof.
  apply (expand_with_data_ok_output Demo.collab Demo.all_features MySql
           (Demo.input Generated ["x"]) (Demo.qd 1 []) []).
  reflexivity.
Defined.

Lemma expand_with_data_snd (c : Collab) (ft : Features) (b : Backend)
  (input : QueryMacroInput) (data : QueryData) (st : Store) :
  snd (expand_with_data c ft b input data st) =
    if f_offline ft && is_ok (fst (expand_with_data c ft b input data st))
    then data :: st else st.
Proof.
  unfold expand_with_data.
  destruct (negb _); [cbn [lift fst snd is_ok]; rewrite andb_false_r; reflexivity|].
  rewrite !bind_lift.
  destruct (quote_args c input (describe data));
    [|cbn [fst snd is_ok]; rewrite andb_false_r; reflexivity..].
  destruct (expand_output c b input data);
    [|cbn [fst snd is_ok]; rewrite andb_false_r; reflexivity..].
  destruct (f_offline ft); unfold bind, ret, save_in; [destruct (fs_ok c)|]; reflexivity.
Qed.

(** With the [offline] feature on, an expansion whose query data cannot be
    written under [target/sqlx] fails, and nothing is saved. *)
Theorem expand_with_data_save_failure (c : Collab) (ft : Features) (b : Backend)
  (input : QueryMacroInput) (data : QueryData) (st : Store) :
  f_offline ft = true -> fs_ok c = false ->
  is_ok (fst (expand_with_data c ft b input data st)) = false /\
  snd (expand_with_data c ft b input data st) = st.
Proof.
  intros Ho Hfs.
  assert (Hr : is_ok (fst (expand_with_data c ft b input data st)) = false).
  { unfold expand_with_data.
    destruct (negb _); [reflexivity|]. rewrite !bind_lift.
    destruct (quote_args c input (describe data)); [|reflexivity..].
    destruct (expand_output c b input data); [|reflexivity..].
    rewrite Ho. unfold bind, ret, save_in. rewrite Hfs. reflexivity. }
  split; [exact Hr|]. rewrite expand_with_data_snd, Hr, andb_false_r. reflexivity.
Qed.

Lemma expand_with_data_save_failure_witness :
  is_ok (fst (expand_with_data Demo.broken_fs Demo.all_features Postgres
                (Demo.input Generated []) (Demo.qd 0 [Demo.col_id]) [])) = false /\
  snd (expand_with_data Demo.broken_fs Demo.all_features Postgres
         (Demo.input Generated []) (Demo.qd 0 [Demo.col_id]) []) = [].
Proof. apply expand_with_data_save_failure; reflexivity. Defined.

(** ** The live path *)

(** A URL that does not parse fails the expansion with the parser's error,
    before any backend is chosen or any connection is made. *)
Theorem expand_from_db_bad_url (c : Collab) (ft : Features) (input : QueryMacroInput)
  (db_url e : string) (st : Store) :
  parse_url c db_url = Err e ->
  expand_from_db c ft input db_url st = (Err e, st).
Proof. intros H. unfold expand_from_db. rewrite bind_lift, H. reflexivity. Qed.

Lemma expand_from_db_bad_url_witness :
  expand_from_db Demo.collab Demo.all_features (Demo.input Generated []) "localhost/db" []
    = (Err "relative URL without a base", []).
Proof. apply expand_from_db_bad_url. reflexivity. Defined.

(** One live arm: a failed connection or describe fails the expansion with
    that error and saves nothing; with the [offline] feature on, a
    successful expansion saves exactly the description it obtained, for the
    query text of the input, tagged with the backend's name. *)
Theorem expand_live_describes (c : Collab) (ft : Features) (b : Backend)
  (input : QueryMacroInput) (url : string) (st : Store) :
  (forall e, connect_describe c b url (src input) = Err e ->
     expand_live c ft b input url st = (Err e, st)) /\
  (f_offline ft = true -> is_ok (fst (expand_live c ft b input url st)) = true ->
     exists d, connect_describe c b url (src input) = Ok d /\
       snd (expand_live c ft b input url st) = from_db c b (src input) d :: st /\
       query (from_db c b (src input) d) = src input /\
       db_name (from_db c b (src input) d) = NAME b).
Proof.
  split.
  - intros e He. unfold expand_live. rewrite bind_lift, He. reflexivity.
  - intros Ho Hok. unfold expand_live in *. rewrite bind_lift in *.
    destruct (connect_describe c b url (src input)) as [d| |]; try discriminate Hok.
    exists d. split; [reflexivity|]. split; [|split; reflexivity].
    rewrite expand_with_data_snd, Ho, Hok. reflexivity.
Qed.

Lemma expand_live_describes_witness :
  expand_live Demo.unreachable Demo.all_features Postgres (Demo.input Generated []) "postgres://h/db" []
    = (Err "connection refused", []) /\
  exists d, connect_describe Demo.collab Postgres "postgres://h/db" "SELECT 1" = Ok d /\
    snd (expand_live Demo.collab Demo.all_features Postgres (Demo.input Generated [])
           "postgres://h/db" [])
      = from_db Demo.collab Postgres "SELECT 1" d :: [] /\
    query (from_db Demo.collab Postgres "SELECT 1" d) = "SELECT 1" /\
    db_name (from_db Demo.collab Postgres "SELECT 1" d) = "PostgreSQL".
Proof.
  split.
  - apply (proj1 (expand_live_describes Demo.unreachable Demo.all_features Postgres
                    (Demo.input Generated []) "postgres://h/db" [])).
    reflexivity.
  - apply (proj2 (expand_live_describes Demo.collab Demo.all_features Postgres
                    (Demo.input Generated []) "postgres://h/db" [])); reflexivity.
Defined.

(** ** The offline path *)

(** With the [offline] feature on, a successful expansion from the snapshot
    saves the entry it was served from, unchanged. *)
Theorem expand_from_file_resaves (c : Collab) (ft : Features) (input : QueryMacroInput)
  (snap : Snapshot) (q : QueryData) (st : Store) :
  from_data_file c snap (src input) = Ok q -> f_offline ft = true ->
  is_ok (fst (expand_from_file c ft input snap st)) = true ->
  snd (expand_from_file c ft input snap st) = q :: st.
Proof.
  intros Hq Ho. unfold expand_from_file. rewrite bind_lift, Hq.
  destruct (db_name q =? EmptyString); [discriminate|].
  repeat match goal with
         | |- context [if ?x then _ else _] => destruct x
         end;
    rewrite ?bind_lift; unfold from_dyn_data;
    repeat match goal with
           | |- context [if ?x then _ else _] => destruct x
           end;
    try discriminate;
    intros Hok; rewrite expand_with_data_snd, Ho, Hok; reflexivity.
Qed.

Lemma expand_from_file_resaves_witness :
  snd (expand_from_file Demo.collab Demo.all_features (Demo.input Generated [])
         (Demo.snap "SQLite") [])
    = [{| query := "SELECT 1"; describe := Demo.desc 0 [Demo.col_id];
          hash := "SELECT 1"; db_name := "SQLite" |}].
Proof. apply expand_from_file_resaves; reflexivity. Defined.

Lemma expand_from_file_dispatch_witness :
  expand_from_file Demo.collab Demo.all_features (Demo.input Generated []) (Demo.snap "MySQL") []
    = expand_with_data Demo.collab Demo.all_features MySql (Demo.input Generated [])
        {| query := "SELECT 1"; describe := Demo.desc 0 [Demo.col_id];
           hash := "SELECT 1"; db_name := "MySQL" |} [].
Proof.
  apply (proj1 (expand_from_file_dispatch Demo.collab Demo.all_features (Demo.input Generated [])
                  (Demo.snap "MySQL") []
                  {| query := "SELECT 1"; describe := Demo.desc 0 [Demo.col_id];
                     hash := "SELECT 1"; db_name := "MySQL" |} eq_refl ltac:(discriminate)) MySql);
    [discriminate | reflexivity | reflexivity].
Defined.

(** ** The environment *)

(** [expand_input] first needs [CARGO_MANIFEST_DIR], then a loadable
    [.env] file (if there is one): either failure aborts the expansion,
    before any database URL or snapshot is looked at, with the message
    asking for the variable, or with one carrying the loader's error;
    nothing is saved. *)
Theorem expand_input_env_errors (c : Collab) (ft : Features) (env : Env)
  (input : QueryMacroInput) (st : Store) :
  (cargo_manifest_dir env = None ->
     expand_input c ft env input st = (Err "`CARGO_MANIFEST_DIR` must be set", st)) /\
  (forall m e, cargo_manifest_dir env = Some m -> dotenv_error env = Some e ->
     exists msg, expand_input c ft env input st = (Err msg, st) /\ mentions e msg = true).
Proof.
  split.
  - intros H. unfold expand_input. rewrite H. reflexivity.
  - intros m e Hm He. eexists. split; [unfold expand_input; rewrite Hm, He; reflexivity|].
    rewrite !str_app_assoc. apply mentions_suffix.
Qed.

Lemma expand_input_env_errors_witness :
  expand_input Demo.collab Demo.all_features
    {| cargo_manifest_dir := None; dotenv_error := None;
       database_url := Some "postgres://h/db"; data_file := None |}
    (Demo.input Generated []) []
    = (Err "`CARGO_MANIFEST_DIR` must be set", []) /\
  exists msg, expand_input Demo.collab Demo.all_features
    {| cargo_manifest_dir := Some "/app"; dotenv_error := Some "line 3: bad quote";
       database_url := Some "postgres://h/db"; data_file := None |}
    (Demo.input Generated []) []
    = (Err msg, []) /\ mentions "line 3: bad quote" msg = true.
Proof.
  split.
  - apply (proj1 (expand_input_env_errors Demo.collab Demo.all_features
                    {| cargo_manifest_dir := None; dotenv_error := None;
                       database_url := Some "postgres://h/db"; data_file := None |}
                    (Demo.input Generated []) [])).
    reflexivity.
  - apply (proj2 (expand_input_env_errors Demo.collab Demo.all_features
                    {| cargo_manifest_dir := Some "/app"; dotenv_error := Some "line 3: bad quote";
                       database_url := Some "postgres://h/db"; data_file := None |}
                    (Demo.input Generated []) []) "/app" "line 3: bad quote");
      reflexivity.
Defined.
